(** * CO_driver.c (CANopenNode driver over the STM32 CubeMX HAL)

    A shallow embedding of the driver's receive dispatch, transmit queue,
    error supervision and life-cycle functions, and the properties of the
    specification that they satisfy or miss.

    Conventions of the embedding.
    - C unsigned integers are [Z] values; a store into a [w]-bit object is
      written [uintw_t x] (reduction modulo [2^w]).
    - Data pointers that the code only tests against [NULL] and passes on
      ([object], [pFunct]) are addresses, [NULL] being [0].
    - [rxArray]/[rxSize] and [txArray]/[txSize] are a list: the array and its
      length. A [CO_CANtx_t *] into [txArray] is the index of the slot.
    - The emergency object behind [CANmodule->em] and the peripheral behind
      [CANmodule->CANbaseAddress] are collaborators whose code is not part of
      CO_driver.c. They are kept in the driver state [Driver] next to the
      module, each with the trace of the calls that the driver made to it.
    - Every function is embedded as it runs from entry to return without
      interruption: CO_LOCK_CAN_SEND and CO_UNLOCK_CAN_SEND have no
      counterpart, and the file-level pointer [RxFifo_Callback_CanModule_p],
      which only routes the HAL receive callbacks to CO_CANinterrupt_Rx, is
      left out. *)

From Stdlib Require Import ZArith Lia Bool.
From stdpp Require Import base numbers list relations.

Local Open Scope Z_scope.

(** ** Machine integers *)

Definition uint8_t (x : Z) : Z := x mod 2 ^ 8.
Definition uint16_t (x : Z) : Z := x mod 2 ^ 16.
Definition uint32_t (x : Z) : Z := x mod 2 ^ 32.

(** A C scalar used as a condition: true when it is not zero. *)
Definition nonzero (x : Z) : bool := negb (x =? 0).

Definition NULL : Z := 0.

(** ** Return codes *)

Inductive CO_ReturnError_t : Type :=
  | CO_ERROR_NO
  | CO_ERROR_ILLEGAL_ARGUMENT
  | CO_ERROR_TX_OVERFLOW
  | CO_ERROR_ILLEGAL_BAUDRATE
  | CO_ERROR_HAL.

Inductive HAL_StatusTypeDef : Type :=
  | HAL_OK
  | HAL_ERROR
  | HAL_BUSY
  | HAL_TIMEOUT.

Definition is_HAL_OK (s : HAL_StatusTypeDef) : bool :=
  match s with HAL_OK => true | _ => false end.

#[global] Instance CO_ReturnError_eq_dec : EqDecision CO_ReturnError_t.
Proof. solve_decision. Defined.

(** ** The emergency collaborator (CO_Emergency) *)

Inductive CO_EM_errorStatusBits : Type :=
  | CO_EM_CAN_BUS_WARNING
  | CO_EM_CAN_TX_BUS_PASSIVE
  | CO_EM_CAN_TX_BUS_OFF
  | CO_EM_CAN_RXB_OVERFLOW
  | CO_EM_CAN_TX_OVERFLOW
  | CO_EM_TPDO_OUTSIDE_WINDOW.

Inductive CO_EM_errorCodes : Type :=
  | CO_EMC_NO_ERROR
  | CO_EMC_COMMUNICATION
  | CO_EMC_CAN_OVERRUN
  | CO_EMC_CAN_PASSIVE
  | CO_EMC_BUS_OFF_RECOVERED.

#[global] Instance CO_EM_errorStatusBits_eq_dec : EqDecision CO_EM_errorStatusBits.
Proof. solve_decision. Defined.

#[global] Instance CO_EM_errorCodes_eq_dec : EqDecision CO_EM_errorCodes.
Proof. solve_decision. Defined.

(** One call of the driver into the emergency object. *)
Inductive em_call : Type :=
  | errorReport (errorBit : CO_EM_errorStatusBits) (errorCode : CO_EM_errorCodes) (infoCode : Z)
  | errorReset (errorBit : CO_EM_errorStatusBits) (infoCode : Z).

#[global] Instance em_call_eq_dec : EqDecision em_call.
Proof. solve_decision. Defined.

Definition is_reset_of (bit : CO_EM_errorStatusBits) (c : em_call) : bool :=
  match c with
  | errorReport _ _ _ => false
  | errorReset b _ => bool_decide (b = bit)
  end.

(** Modelled from the spec: CO_Emergency.c is not among the sources. The spec
    (section 6) gives the interface the driver calls: [report_fault(code,
    classification, aux)], [clear_fault(code, aux)] and
    [is_fault_active(code)]. The object holds the set of active fault bits;
    [em_calls] records every call, oldest first. *)
Record CO_EM_t : Type := {
  errorStatus : list CO_EM_errorStatusBits;
  em_calls : list em_call
}.

Definition CO_isError (em : CO_EM_t) (errorBit : CO_EM_errorStatusBits) : bool :=
  bool_decide (errorBit ∈ errorStatus em).

Definition CO_errorReport (em : CO_EM_t) (errorBit : CO_EM_errorStatusBits)
    (errorCode : CO_EM_errorCodes) (infoCode : Z) : CO_EM_t :=
  {| errorStatus :=
       if CO_isError em errorBit then errorStatus em else errorBit :: errorStatus em;
     em_calls := em_calls em ++ [errorReport errorBit errorCode infoCode] |}.

Definition CO_errorReset (em : CO_EM_t) (errorBit : CO_EM_errorStatusBits)
    (infoCode : Z) : CO_EM_t :=
  {| errorStatus := filter (λ b, b ≠ errorBit) (errorStatus em);
     em_calls := em_calls em ++ [errorReset errorBit infoCode] |}.

(** ** The peripheral behind the HAL *)

(** The four fields of the HAL transmit header that [prepareTxHeader]
    writes. The header has more ([IDE], [TransmitGlobalTime]), which the
    driver never writes: they hold what the header object held before, zero
    in the [static] header of CO_CANsend and no determined value in the
    automatic one of CO_CANpolling_Tx (line 655), and no statement below
    speaks of them. *)
Record CAN_TxHeaderTypeDef : Type := {
  tx_StdId : Z;
  tx_ExtId : Z;
  tx_RTR : Z;
  tx_DLC : Z
}.

Record CAN_RxHeaderTypeDef : Type := {
  StdId : Z;
  RTR : Z;
  rx_DLC : Z
}.

Inductive FunctionalState : Type := DISABLE | ENABLE.

(** The fields of [hcan->Init] are written with constants of the HAL headers;
    only their names matter here. *)
Inductive CAN_init_constant : Type :=
  | CAN_MODE_NORMAL
  | CAN_SJW_1TQ
  | CAN_BS1_13TQ
  | CAN_BS2_2TQ
  | init_unset.

Record CAN_InitTypeDef : Type := {
  Prescaler : Z;
  Mode : CAN_init_constant;
  SyncJumpWidth : CAN_init_constant;
  TimeSeg1 : CAN_init_constant;
  TimeSeg2 : CAN_init_constant;
  TimeTriggeredMode : FunctionalState;
  AutoBusOff : FunctionalState;
  AutoWakeUp : FunctionalState;
  AutoRetransmission : FunctionalState;
  ReceiveFifoLocked : FunctionalState;
  TransmitFifoPriority : FunctionalState
}.

Inductive CAN_TypeDef : Type := CAN1.

(** The HAL's names for the filter settings the driver uses. *)
Inductive CAN_filter_constant : Type :=
  | CAN_FILTERMODE_IDMASK | CAN_FILTERSCALE_32BIT | CAN_RX_FIFO0.

Record CAN_FilterTypeDef : Type := {
  FilterBank : Z;
  FilterMode : CAN_filter_constant;
  FilterScale : CAN_filter_constant;
  FilterIdHigh : Z;
  FilterIdLow : Z;
  FilterMaskIdHigh : Z;
  FilterMaskIdLow : Z;
  FilterFIFOAssignment : CAN_filter_constant;
  FilterActivation : FunctionalState;
  SlaveStartFilterBank : Z
}.

(** Modelled from the spec: the HAL (can.h and the vendor driver) is not among
    the sources. The spec (section 6) lists what the driver consumes: [stop],
    [start], [enable_notifications], [free_mailbox_count], [add_message],
    [get_message] and [read_error_bitmask]. The handle carries the fields the
    driver writes ([Instance], [Init]) and reads ([ErrorCode]); what the
    peripheral answers to the next call of each HAL function is part of the
    state, set by the environment; [AddTxMessage_calls] records every frame
    passed to [HAL_CAN_AddTxMessage] and [ConfigFilter_calls] every filter
    passed to [HAL_CAN_ConfigFilter], oldest first. *)
Record CAN_HandleTypeDef : Type := {
  Instance : option CAN_TypeDef;
  Init : CAN_InitTypeDef;
  ErrorCode : Z;
  TxMailboxesFreeLevel : Z;
  AddTxMessage_status : HAL_StatusTypeDef;
  Start_status : HAL_StatusTypeDef;
  ActivateNotification_status : HAL_StatusTypeDef;
  Init_status : HAL_StatusTypeDef;
  ConfigFilter_status : HAL_StatusTypeDef;
  AddTxMessage_calls : list (CAN_TxHeaderTypeDef * list Z);
  ConfigFilter_calls : list CAN_FilterTypeDef
}.

Definition HAL_CAN_GetTxMailboxesFreeLevel (hcan : CAN_HandleTypeDef) : Z :=
  TxMailboxesFreeLevel hcan.

(** A frame the peripheral accepts occupies one mailbox (spec, glossary:
    a mailbox holds one frame awaiting bus access) until the environment
    frees it again; a refused frame occupies none. The driver makes the call
    only after it has seen a free mailbox. *)
Definition HAL_CAN_AddTxMessage (hcan : CAN_HandleTypeDef)
    (pHeader : CAN_TxHeaderTypeDef) (aData : list Z)
    : HAL_StatusTypeDef * CAN_HandleTypeDef :=
  (AddTxMessage_status hcan,
   {| Instance := Instance hcan;
      Init := Init hcan;
      ErrorCode := ErrorCode hcan;
      TxMailboxesFreeLevel :=
        if is_HAL_OK (AddTxMessage_status hcan)
        then TxMailboxesFreeLevel hcan - 1
        else TxMailboxesFreeLevel hcan;
      AddTxMessage_status := AddTxMessage_status hcan;
      Start_status := Start_status hcan;
      ActivateNotification_status := ActivateNotification_status hcan;
      Init_status := Init_status hcan;
      ConfigFilter_status := ConfigFilter_status hcan;
      AddTxMessage_calls := AddTxMessage_calls hcan ++ [(pHeader, aData)];
      ConfigFilter_calls := ConfigFilter_calls hcan |}).

Definition HAL_CAN_Start (hcan : CAN_HandleTypeDef) : HAL_StatusTypeDef :=
  Start_status hcan.

Definition HAL_CAN_ActivateNotification (hcan : CAN_HandleTypeDef) : HAL_StatusTypeDef :=
  ActivateNotification_status hcan.

Definition HAL_CAN_Init (hcan : CAN_HandleTypeDef) : HAL_StatusTypeDef :=
  Init_status hcan.

Definition HAL_CAN_ConfigFilter (hcan : CAN_HandleTypeDef)
    (sFilterConfig : CAN_FilterTypeDef) : HAL_StatusTypeDef * CAN_HandleTypeDef :=
  (ConfigFilter_status hcan,
   {| Instance := Instance hcan;
      Init := Init hcan;
      ErrorCode := ErrorCode hcan;
      TxMailboxesFreeLevel := TxMailboxesFreeLevel hcan;
      AddTxMessage_status := AddTxMessage_status hcan;
      Start_status := Start_status hcan;
      ActivateNotification_status := ActivateNotification_status hcan;
      Init_status := Init_status hcan;
      ConfigFilter_status := ConfigFilter_status hcan;
      AddTxMessage_calls := AddTxMessage_calls hcan;
      ConfigFilter_calls := ConfigFilter_calls hcan ++ [sFilterConfig] |}).

Definition set_Init (i : CAN_InitTypeDef) (hcan : CAN_HandleTypeDef) : CAN_HandleTypeDef :=
  {| Instance := Some CAN1;
     Init := i;
     ErrorCode := ErrorCode hcan;
     TxMailboxesFreeLevel := TxMailboxesFreeLevel hcan;
     AddTxMessage_status := AddTxMessage_status hcan;
     Start_status := Start_status hcan;
     ActivateNotification_status := ActivateNotification_status hcan;
     Init_status := Init_status hcan;
     ConfigFilter_status := ConfigFilter_status hcan;
     AddTxMessage_calls := AddTxMessage_calls hcan;
     ConfigFilter_calls := ConfigFilter_calls hcan |}.

(** The error bits of [hcan->ErrorCode] that CO_CANverifyErrors tests. Their
    values are [#define]s of the vendor's HAL header, which is not among the
    sources, so the driver is parametrised by them. *)
Class HAL_CAN_ERROR : Type := {
  HAL_CAN_ERROR_NONE : Z;
  HAL_CAN_ERROR_EWG : Z;
  HAL_CAN_ERROR_EPV : Z;
  HAL_CAN_ERROR_BOF : Z;
  HAL_CAN_ERROR_RX_FOV0 : Z;
  HAL_CAN_ERROR_RX_FOV1 : Z
}.

(** The values the STM32 HAL CAN driver (stm32xxxx_hal_can.h) gives them:
    "no error" is the empty bit mask. *)
Definition stm32_hal_can_error : HAL_CAN_ERROR := {|
  HAL_CAN_ERROR_NONE := 0x00000000;
  HAL_CAN_ERROR_EWG := 0x00000001;
  HAL_CAN_ERROR_EPV := 0x00000002;
  HAL_CAN_ERROR_BOF := 0x00000004;
  HAL_CAN_ERROR_RX_FOV0 := 0x00000200;
  HAL_CAN_ERROR_RX_FOV1 := 0x00000400
|}.

(** ** The driver's data (CO_driver.h)

    The struct declarations are in CO_driver.h, which is not among the
    sources; the fields are those CO_driver.c uses, with the widths of the
    CANopenNode driver template this port derives from: 16-bit [ident] and
    [mask] in a receive entry, a 32-bit [ident] in a transmit entry, a 16-bit
    [CANtxCount] and a 32-bit [errOld]. *)

Record CO_CANrxMsg_t : Type := {
  RxHeader : CAN_RxHeaderTypeDef;
  msg_ident : Z;
  msg_DLC : Z;
  msg_data : list Z
}.

Record CO_CANrx_t : Type := {
  rx_ident : Z;
  rx_mask : Z;
  rx_object : Z;
  rx_pFunct : Z
}.

Record CO_CANtx_t : Type := {
  ident : Z;
  DLC : Z;
  data : list Z;
  bufferFull : bool;
  syncFlag : bool
}.

Record CO_CANmodule_t : Type := {
  rxArray : list CO_CANrx_t;
  txArray : list CO_CANtx_t;
  CANnormal : bool;
  useCANrxFilters : bool;
  bufferInhibitFlag : bool;
  firstCANtxMessage : bool;
  CANtxCount : Z;
  errOld : Z;
  em : Z
}.

Definition rxSize (m : CO_CANmodule_t) : nat := length (rxArray m).
Definition txSize (m : CO_CANmodule_t) : nat := length (txArray m).

(** Field updates. *)

Definition set_bufferFull (v : bool) (b : CO_CANtx_t) : CO_CANtx_t :=
  {| ident := ident b; DLC := DLC b; data := data b;
     bufferFull := v; syncFlag := syncFlag b |}.

Definition set_txArray (v : list CO_CANtx_t) (m : CO_CANmodule_t) : CO_CANmodule_t :=
  {| rxArray := rxArray m; txArray := v; CANnormal := CANnormal m;
     useCANrxFilters := useCANrxFilters m;
     bufferInhibitFlag := bufferInhibitFlag m;
     firstCANtxMessage := firstCANtxMessage m;
     CANtxCount := CANtxCount m; errOld := errOld m; em := em m |}.

Definition set_rxArray (v : list CO_CANrx_t) (m : CO_CANmodule_t) : CO_CANmodule_t :=
  {| rxArray := v; txArray := txArray m; CANnormal := CANnormal m;
     useCANrxFilters := useCANrxFilters m;
     bufferInhibitFlag := bufferInhibitFlag m;
     firstCANtxMessage := firstCANtxMessage m;
     CANtxCount := CANtxCount m; errOld := errOld m; em := em m |}.

Definition set_CANnormal (v : bool) (m : CO_CANmodule_t) : CO_CANmodule_t :=
  {| rxArray := rxArray m; txArray := txArray m; CANnormal := v;
     useCANrxFilters := useCANrxFilters m;
     bufferInhibitFlag := bufferInhibitFlag m;
     firstCANtxMessage := firstCANtxMessage m;
     CANtxCount := CANtxCount m; errOld := errOld m; em := em m |}.

Definition set_bufferInhibitFlag (v : bool) (m : CO_CANmodule_t) : CO_CANmodule_t :=
  {| rxArray := rxArray m; txArray := txArray m; CANnormal := CANnormal m;
     useCANrxFilters := useCANrxFilters m;
     bufferInhibitFlag := v;
     firstCANtxMessage := firstCANtxMessage m;
     CANtxCount := CANtxCount m; errOld := errOld m; em := em m |}.

Definition set_firstCANtxMessage (v : bool) (m : CO_CANmodule_t) : CO_CANmodule_t :=
  {| rxArray := rxArray m; txArray := txArray m; CANnormal := CANnormal m;
     useCANrxFilters := useCANrxFilters m;
     bufferInhibitFlag := bufferInhibitFlag m;
     firstCANtxMessage := v;
     CANtxCount := CANtxCount m; errOld := errOld m; em := em m |}.

Definition set_CANtxCount (v : Z) (m : CO_CANmodule_t) : CO_CANmodule_t :=
  {| rxArray := rxArray m; txArray := txArray m; CANnormal := CANnormal m;
     useCANrxFilters := useCANrxFilters m;
     bufferInhibitFlag := bufferInhibitFlag m;
     firstCANtxMessage := firstCANtxMessage m;
     CANtxCount := v; errOld := errOld m; em := em m |}.

Definition set_errOld (v : Z) (m : CO_CANmodule_t) : CO_CANmodule_t :=
  {| rxArray := rxArray m; txArray := txArray m; CANnormal := CANnormal m;
     useCANrxFilters := useCANrxFilters m;
     bufferInhibitFlag := bufferInhibitFlag m;
     firstCANtxMessage := firstCANtxMessage m;
     CANtxCount := CANtxCount m; errOld := v; em := em m |}.

(** The module together with its two collaborators. *)
Record Driver : Type := {
  CANmodule : CO_CANmodule_t;
  hcan : CAN_HandleTypeDef;
  EM : CO_EM_t
}.

Definition with_module (m : CO_CANmodule_t) (d : Driver) : Driver :=
  {| CANmodule := m; hcan := hcan d; EM := EM d |}.

Definition with_hcan (h : CAN_HandleTypeDef) (d : Driver) : Driver :=
  {| CANmodule := CANmodule d; hcan := h; EM := EM d |}.

(** ** CO_driver.c *)

(** [prepareTxHeader]: the HAL transmit header of a transmit entry. *)
Definition prepareTxHeader (buffer : CO_CANtx_t) : CAN_TxHeaderTypeDef :=
  {| tx_ExtId := 0;
     tx_DLC := DLC buffer;
     tx_StdId := Z.shiftr (ident buffer) 2;
     tx_RTR := Z.land (ident buffer) 0x2 |}.

(** [CO_CANsetNormalMode]. *)
Definition CO_CANsetNormalMode (d : Driver) : CO_ReturnError_t * Driver :=
  let Error := CO_ERROR_NO in
  let Error := if is_HAL_OK (HAL_CAN_Start (hcan d)) then Error else CO_ERROR_HAL in
  let Error :=
    if is_HAL_OK (HAL_CAN_ActivateNotification (hcan d)) then Error else CO_ERROR_HAL in
  (Error, with_module (set_CANnormal true (CANmodule d)) d).

(** What a call can end in: a return, or the dereference of a null pointer,
    after which C gives the program no meaning. *)
Inductive outcome (A : Type) : Type :=
  | Returns (a : A)
  | NullDereference.

Arguments Returns {A} a.
Arguments NullDereference {A}.

(** The [switch (CANbitRate)] of CO_CANmodule_init; [None] is its [default]. *)
Definition Prescaler_of (CANbitRate : Z) : option Z :=
  if CANbitRate =? 1000 then Some 5
  else if CANbitRate =? 500 then Some 10
  else if CANbitRate =? 250 then Some 20
  else if CANbitRate =? 125 then Some 40
  else if CANbitRate =? 100 then Some 50
  else if CANbitRate =? 50 then Some 100
  else if CANbitRate =? 20 then Some 250
  else if CANbitRate =? 10 then Some 500
  else None.

Definition init_rx (b : CO_CANrx_t) : CO_CANrx_t :=
  {| rx_ident := 0; rx_mask := rx_mask b; rx_object := rx_object b; rx_pFunct := NULL |}.

Definition init_Init (p : Z) : CAN_InitTypeDef :=
  {| Prescaler := p;
     Mode := CAN_MODE_NORMAL;
     SyncJumpWidth := CAN_SJW_1TQ;
     TimeSeg1 := CAN_BS1_13TQ;
     TimeSeg2 := CAN_BS2_2TQ;
     TimeTriggeredMode := DISABLE;
     AutoBusOff := DISABLE;
     AutoWakeUp := DISABLE;
     AutoRetransmission := ENABLE;
     ReceiveFifoLocked := DISABLE;
     TransmitFifoPriority := DISABLE |}.

(** [CO_CANmodule_init]. A pointer argument is [None] when it is [NULL] and
    the object it points to otherwise; the arrays come with their sizes. The
    result holds the return code and, when the call wrote to them, the module
    and the handle as it left them. [HAL_CAN_Stop] and the stores to
    [CANmodule->CANbaseAddress->Instance] and [->Init] go through the handle
    pointer, which the function has not tested. *)
Definition CO_CANmodule_init
    (CANmodule_p : option CO_CANmodule_t)
    (HALCanObject : option CAN_HandleTypeDef)
    (rxArray_p : option (list CO_CANrx_t))
    (txArray_p : option (list CO_CANtx_t))
    (CANbitRate : Z)
    : outcome (CO_ReturnError_t * option (CO_CANmodule_t * CAN_HandleTypeDef)) :=
  match CANmodule_p, rxArray_p, txArray_p with
  | Some _, Some rxA, Some txA =>
      let m :=
        {| rxArray := map init_rx rxA;
           txArray := map (set_bufferFull false) txA;
           CANnormal := false;
           useCANrxFilters := false;
           bufferInhibitFlag := false;
           firstCANtxMessage := true;
           CANtxCount := 0;
           errOld := 0;
           em := NULL |} in
      match HALCanObject with
      | None => NullDereference
      | Some h =>
          let h := set_Init (init_Init (Prescaler (Init h))) h in
          match Prescaler_of CANbitRate with
          | None => Returns (CO_ERROR_ILLEGAL_BAUDRATE, Some (m, h))
          | Some p =>
              let h := set_Init (init_Init p) h in
              if is_HAL_OK (HAL_CAN_Init h)
              then Returns (CO_ERROR_NO, Some (m, h))
              else Returns (CO_ERROR_HAL, Some (m, h))
          end
      end
  | _, _, _ => Returns (CO_ERROR_ILLEGAL_ARGUMENT, None)
  end.

(** [CO_CANrxBufferInit]. *)
Definition CO_CANrxBufferInit (d_p : option Driver) (index : nat)
    (ident mask : Z) (rtr : bool) (object pFunct : Z)
    : CO_ReturnError_t * option Driver :=
  match d_p with
  | Some d =>
      let m := CANmodule d in
      if bool_decide (object ≠ NULL) && bool_decide (pFunct ≠ NULL)
         && (index <? rxSize m)%nat
      then
        let buffer :=
          {| rx_object := object;
             rx_pFunct := pFunct;
             rx_ident :=
               uint16_t (Z.lor (uint16_t (Z.shiftl (Z.land ident 0x07FF) 2))
                               (if rtr then 0x02 else 0));
             rx_mask :=
               uint16_t (Z.lor (uint16_t (Z.shiftl (Z.land mask 0x07FF) 2)) 0x02) |} in
        let d' := with_module (set_rxArray (<[index := buffer]> (rxArray m)) m) d in
        if useCANrxFilters m then (CO_ERROR_NO, Some d')
        else
          let FilterConfig :=
            {| FilterBank := 0;
               FilterMode := CAN_FILTERMODE_IDMASK;
               FilterScale := CAN_FILTERSCALE_32BIT;
               FilterIdHigh := 0x0;
               FilterIdLow := 0x0;
               FilterMaskIdHigh := 0x0;
               FilterMaskIdLow := 0x0;
               FilterFIFOAssignment := CAN_RX_FIFO0;
               FilterActivation := ENABLE;
               SlaveStartFilterBank := 14 |} in
          let '(status, h) := HAL_CAN_ConfigFilter (hcan d') FilterConfig in
          let d' := with_hcan h d' in
          if is_HAL_OK status then (CO_ERROR_NO, Some d')
          else (CO_ERROR_HAL, Some d')
      else (CO_ERROR_ILLEGAL_ARGUMENT, Some d)
  | None => (CO_ERROR_ILLEGAL_ARGUMENT, None)
  end.

(** The header fields CO_CANtxBufferInit writes into a slot; [data] is left
    as it is. *)
Definition init_tx (ident_arg : Z) (rtr : bool) (noOfBytes : Z) (sync : bool)
    (buffer : CO_CANtx_t) : CO_CANtx_t :=
  {| ident :=
       uint32_t (Z.lor (uint32_t (Z.shiftl ident_arg 2)) (if rtr then 0x02 else 0));
     DLC := uint8_t noOfBytes;
     data := data buffer;
     bufferFull := false;
     syncFlag := sync |}.

(** [CO_CANtxBufferInit]. The returned pointer is [None] for [NULL] and the
    index of the slot otherwise; the second component is the module after the
    call. *)
Definition CO_CANtxBufferInit (CANmodule_p : option CO_CANmodule_t) (index : nat)
    (ident_arg : Z) (rtr : bool) (noOfBytes : Z) (sync : bool)
    : option nat * option CO_CANmodule_t :=
  match CANmodule_p with
  | Some m =>
      if (index <? txSize m)%nat then
        match txArray m !! index with
        | Some buffer =>
            (Some index,
             Some (set_txArray
                     (<[index := init_tx ident_arg rtr noOfBytes sync buffer]> (txArray m))
                     m))
        | None => (None, Some m)
        end
      else (None, Some m)
  | None => (None, None)
  end.

(** [CO_CANsend]. [buffer] is the index of the slot in [txArray]; the result
    is [None] when it designates none, a case C gives no meaning to. *)
Definition CO_CANsend (d : Driver) (buffer : nat) : option (CO_ReturnError_t * Driver) :=
  let m := CANmodule d in
  match txArray m !! buffer with
  | None => None
  | Some b =>
      let err := CO_ERROR_NO in
      let '(err, em') :=
        if bufferFull b then
          (CO_ERROR_TX_OVERFLOW,
           if negb (firstCANtxMessage m)
           then CO_errorReport (EM d) CO_EM_CAN_TX_OVERFLOW CO_EMC_CAN_OVERRUN (ident b)
           else EM d)
        else (err, EM d) in
      let TxHeader := prepareTxHeader b in
      if (CANtxCount m =? 0) && (0 <? HAL_CAN_GetTxMailboxesFreeLevel (hcan d)) then
        let m := set_bufferInhibitFlag (syncFlag b) m in
        let '(status, h) := HAL_CAN_AddTxMessage (hcan d) TxHeader (data b) in
        let err := if is_HAL_OK status then err else CO_ERROR_HAL in
        Some (err, {| CANmodule := m; hcan := h; EM := em' |})
      else
        let m := set_txArray (<[buffer := set_bufferFull true b]> (txArray m)) m in
        let m := set_CANtxCount (uint16_t (CANtxCount m + 1)) m in
        Some (err, {| CANmodule := m; hcan := hcan d; EM := em' |})
  end.

(** The [for] loop of CO_CANclearPendingSyncPDOs over the slots that are
    left, threading [CANtxCount] and [tpdoDeleted]. *)
Fixpoint clearPendingSync_loop (buffers : list CO_CANtx_t) (count tpdoDeleted : Z)
    : list CO_CANtx_t * Z * Z :=
  match buffers with
  | [] => ([], count, tpdoDeleted)
  | buffer :: rest =>
      if bufferFull buffer && syncFlag buffer then
        let '(rest', count', deleted') :=
          clearPendingSync_loop rest (uint16_t (count - 1)) 2 in
        (set_bufferFull false buffer :: rest', count', deleted')
      else
        let '(rest', count', deleted') :=
          clearPendingSync_loop rest count tpdoDeleted in
        (buffer :: rest', count', deleted')
  end.

(** [CO_CANclearPendingSyncPDOs]. *)
Definition CO_CANclearPendingSyncPDOs (d : Driver) : Driver :=
  let m := CANmodule d in
  let tpdoDeleted := 0 in
  let '(m, tpdoDeleted) :=
    if bufferInhibitFlag m then (set_bufferInhibitFlag false m, 1)
    else (m, tpdoDeleted) in
  let '(m, tpdoDeleted) :=
    if nonzero (CANtxCount m) then
      let '(buffers, count, deleted) :=
        clearPendingSync_loop (txArray m) (CANtxCount m) tpdoDeleted in
      (set_CANtxCount count (set_txArray buffers m), deleted)
    else (m, tpdoDeleted) in
  let em' :=
    if nonzero tpdoDeleted
    then CO_errorReport (EM d) CO_EM_TPDO_OUTSIDE_WINDOW CO_EMC_COMMUNICATION tpdoDeleted
    else EM d in
  {| CANmodule := m; hcan := hcan d; EM := em' |}.

(** [CO_CANverifyErrors]. *)
Definition CO_CANverifyErrors `{HAL_CAN_ERROR} (d : Driver) : Driver :=
  let m := CANmodule d in
  let em := EM d in
  let HalCanErrorCode := ErrorCode (hcan d) in
  if bool_decide (errOld m ≠ HalCanErrorCode) then
    let m := set_errOld HalCanErrorCode m in
    let em :=
      if nonzero (Z.land HalCanErrorCode HAL_CAN_ERROR_BOF) then
        CO_errorReport em CO_EM_CAN_TX_BUS_OFF CO_EMC_BUS_OFF_RECOVERED HalCanErrorCode
      else
        let em := CO_errorReset em CO_EM_CAN_TX_BUS_OFF HalCanErrorCode in
        let em :=
          if nonzero (Z.land HalCanErrorCode HAL_CAN_ERROR_EWG)
          then CO_errorReport em CO_EM_CAN_BUS_WARNING CO_EMC_NO_ERROR HalCanErrorCode
          else em in
        let em :=
          if nonzero (Z.land HalCanErrorCode HAL_CAN_ERROR_EPV) then
            if negb (firstCANtxMessage m)
            then CO_errorReport em CO_EM_CAN_TX_BUS_PASSIVE CO_EMC_CAN_PASSIVE HalCanErrorCode
            else em
          else
            let isError := CO_isError em CO_EM_CAN_TX_BUS_PASSIVE in
            if isError then
              let em := CO_errorReset em CO_EM_CAN_TX_BUS_PASSIVE HalCanErrorCode in
              CO_errorReset em CO_EM_CAN_TX_OVERFLOW HalCanErrorCode
            else em in
        if nonzero (Z.land HalCanErrorCode HAL_CAN_ERROR_NONE)
        then CO_errorReset em CO_EM_CAN_BUS_WARNING HalCanErrorCode
        else em in
    let em :=
      if nonzero (Z.land HalCanErrorCode HAL_CAN_ERROR_RX_FOV0)
         || nonzero (Z.land HalCanErrorCode HAL_CAN_ERROR_RX_FOV1)
      then CO_errorReport em CO_EM_CAN_RXB_OVERFLOW CO_EMC_CAN_OVERRUN HalCanErrorCode
      else em in
    {| CANmodule := m; hcan := hcan d; EM := em |}
  else d.

(** The packed identifier that CO_CANinterrupt_Rx compares:
    [(uint16_t)(StdId << 2) | (uint16_t)RTR]. *)
Definition rx_msg (h : CAN_RxHeaderTypeDef) : Z :=
  Z.lor (uint16_t (Z.shiftl (StdId h) 2)) (uint16_t (RTR h)).

Definition rx_matches (msg : Z) (b : CO_CANrx_t) : bool :=
  Z.land (Z.lxor msg (rx_ident b)) (rx_mask b) =? 0.

(** The search loop of CO_CANinterrupt_Rx from position [index] on, over the
    entries that [MsgBuff] still has before it: the index and the entry at
    the [break], or [None] when the loop runs to [rxSize]. *)
Fixpoint rx_search (msg : Z) (MsgBuff : list CO_CANrx_t) (index : nat)
    : option (nat * CO_CANrx_t) :=
  match MsgBuff with
  | [] => None
  | b :: rest =>
      if rx_matches msg b then Some (index, b)
      else rx_search msg rest (S index)
  end.

(** A call of a receive handler: [pFunct(object, &CANmessage)]. *)
Record rx_callback : Type := {
  called_pFunct : Z;
  passed_object : Z;
  passed_message : CO_CANrxMsg_t
}.

(** [CANmessage] once [HAL_CAN_GetRxMessage] has stored [header] and
    [payload] into it and the function has copied [DLC] and [ident]. *)
Definition received_message (header : CAN_RxHeaderTypeDef) (payload : list Z)
    : CO_CANrxMsg_t :=
  {| RxHeader := header;
     msg_DLC := uint8_t (rx_DLC header);
     msg_ident := StdId header;
     msg_data := payload |}.

(** [CO_CANinterrupt_Rx]. [header] and [payload] are what
    [HAL_CAN_GetRxMessage] delivers; the result lists the handler calls made,
    in order. *)
Definition CO_CANinterrupt_Rx (m : CO_CANmodule_t)
    (header : CAN_RxHeaderTypeDef) (payload : list Z) : list rx_callback :=
  let CANmessage := received_message header payload in
  match rx_search (rx_msg header) (rxArray m) 0 with
  | Some (_, MsgBuff) =>
      if bool_decide (rx_pFunct MsgBuff ≠ NULL)
      then [ {| called_pFunct := rx_pFunct MsgBuff;
                passed_object := rx_object MsgBuff;
                passed_message := CANmessage |} ]
      else []
  | None => []
  end.

(** The search loop of CO_CANpolling_Tx: the first slot whose [bufferFull] is
    set, with its index, or [None] when the loop ends with [i == 0]. *)
Fixpoint tx_search (buffers : list CO_CANtx_t) (index : nat)
    : option (nat * CO_CANtx_t) :=
  match buffers with
  | [] => None
  | b :: rest =>
      if bufferFull b then Some (index, b) else tx_search rest (S index)
  end.

(** [CO_CANpolling_Tx]. *)
Definition CO_CANpolling_Tx (d : Driver) : Driver :=
  if 0 <? HAL_CAN_GetTxMailboxesFreeLevel (hcan d) then
    let m := CANmodule d in
    let m := set_firstCANtxMessage false m in
    let m := set_bufferInhibitFlag false m in
    if 0 <? CANtxCount m then
      match tx_search (txArray m) 0 with
      | Some (i, buffer) =>
          let m := set_bufferInhibitFlag (syncFlag buffer) m in
          let '(status, h) :=
            HAL_CAN_AddTxMessage (hcan d) (prepareTxHeader buffer) (data buffer) in
          if is_HAL_OK status then
            let m := set_txArray (<[i := set_bufferFull false buffer]> (txArray m)) m in
            let m := set_CANtxCount (uint16_t (CANtxCount m - 1)) m in
            {| CANmodule := m; hcan := h; EM := EM d |}
          else {| CANmodule := m; hcan := h; EM := EM d |}
      | None =>
          {| CANmodule := set_CANtxCount 0 m; hcan := hcan d; EM := EM d |}
      end
    else {| CANmodule := m; hcan := hcan d; EM := EM d |}
  else d.

(** ** Notions used in the statements *)

(** [x] is the first element of [l] that satisfies [P], at index [i]. *)
Definition first_at {A : Type} (P : A → bool) (l : list A) (i : nat) (x : A) : Prop :=
  l !! i = Some x ∧ P x = true ∧
  ∀ j y, (j < i)%nat → l !! j = Some y → P y = false.

(** The receive array is configured: every entry has a handler, as has every
    entry that CO_CANrxBufferInit wrote, which refuses [pFunct == NULL]
    (line 309). An entry it has not written is as CO_CANmodule_init left it,
    without one. *)
Definition rx_array_configured (l : list CO_CANrx_t) : Prop :=
  ∀ e, e ∈ l → rx_pFunct e ≠ NULL.

(** The call [pFunct(object, &CANmessage)] of a receive entry. *)
Definition callback_of (e : CO_CANrx_t) (header : CAN_RxHeaderTypeDef)
    (payload : list Z) : rx_callback :=
  {| called_pFunct := rx_pFunct e;
     passed_object := rx_object e;
     passed_message := received_message header payload |}.

(** Number of transmit slots whose [bufferFull] is set. *)
Fixpoint count_full (buffers : list CO_CANtx_t) : nat :=
  match buffers with
  | [] => 0
  | b :: rest => ((if bufferFull b then 1 else 0) + count_full rest)%nat
  end.

(** The counter agrees with the flags. *)
Definition tx_count_consistent (m : CO_CANmodule_t) : Prop :=
  CANtxCount m = Z.of_nat (count_full (txArray m)).

(** A queued synchronous frame, and what the clearing loop does to a slot. *)
Definition pending_sync (b : CO_CANtx_t) : bool := bufferFull b && syncFlag b.

Fixpoint count_pending_sync (buffers : list CO_CANtx_t) : nat :=
  match buffers with
  | [] => 0
  | b :: rest => ((if pending_sync b then 1 else 0) + count_pending_sync rest)%nat
  end.

Definition clear_sync (b : CO_CANtx_t) : CO_CANtx_t :=
  if pending_sync b then set_bufferFull false b else b.

(** Two slots hold the same frame: they differ at most in [bufferFull]. *)
Definition same_frame (b b' : CO_CANtx_t) : Prop :=
  ident b' = ident b ∧ DLC b' = DLC b ∧ data b' = data b ∧ syncFlag b' = syncFlag b.

(** The environment between two calls of the driver: the peripheral changes
    its mailbox level, its answers and its error code. *)
Definition peripheral (free : Z) (add : HAL_StatusTypeDef) (code : Z)
    (h : CAN_HandleTypeDef) : CAN_HandleTypeDef :=
  {| Instance := Instance h;
     Init := Init h;
     ErrorCode := code;
     TxMailboxesFreeLevel := free;
     AddTxMessage_status := add;
     Start_status := Start_status h;
     ActivateNotification_status := ActivateNotification_status h;
     Init_status := Init_status h;
     ConfigFilter_status := ConfigFilter_status h;
     AddTxMessage_calls := AddTxMessage_calls h;
     ConfigFilter_calls := ConfigFilter_calls h |}.

(** [CO_CANsend] on a slot of the array, as a total step. *)
Definition send_step (buffer : nat) (d : Driver) : Driver :=
  match CO_CANsend d buffer with
  | Some (_, d') => d'
  | None => d
  end.

(** ** Concrete inputs

    Zero-filled storage, as a C program's static objects are before
    CO_CANmodule_init runs, and a peripheral whose calls succeed. *)

Definition zero_rx : CO_CANrx_t :=
  {| rx_ident := 0; rx_mask := 0; rx_object := NULL; rx_pFunct := NULL |}.

Definition zero_tx : CO_CANtx_t :=
  {| ident := 0; DLC := 0; data := [0; 0; 0; 0; 0; 0; 0; 0];
     bufferFull := false; syncFlag := false |}.

Definition zero_module : CO_CANmodule_t :=
  {| rxArray := []; txArray := []; CANnormal := false; useCANrxFilters := false;
     bufferInhibitFlag := false; firstCANtxMessage := false; CANtxCount := 0;
     errOld := 0; em := NULL |}.

Definition zero_hcan : CAN_HandleTypeDef :=
  {| Instance := None;
     Init :=
       {| Prescaler := 0; Mode := init_unset; SyncJumpWidth := init_unset;
          TimeSeg1 := init_unset; TimeSeg2 := init_unset;
          TimeTriggeredMode := DISABLE; AutoBusOff := DISABLE;
          AutoWakeUp := DISABLE; AutoRetransmission := DISABLE;
          ReceiveFifoLocked := DISABLE; TransmitFifoPriority := DISABLE |};
     ErrorCode := 0;
     TxMailboxesFreeLevel := 3;
     AddTxMessage_status := HAL_OK;
     Start_status := HAL_OK;
     ActivateNotification_status := HAL_OK;
     Init_status := HAL_OK;
     ConfigFilter_status := HAL_OK;
     AddTxMessage_calls := [];
     ConfigFilter_calls := [] |}.

Definition no_faults : CO_EM_t := {| errorStatus := []; em_calls := [] |}.

(** The driver after [CO_CANmodule_init] succeeded at 125 kbit/s on
    zero-filled storage with the given arrays. *)
Definition boot (rx : list CO_CANrx_t) (tx : list CO_CANtx_t) : option Driver :=
  match CO_CANmodule_init (Some zero_module) (Some zero_hcan) (Some rx) (Some tx) 125 with
  | Returns (CO_ERROR_NO, Some (m, h)) =>
      Some {| CANmodule := m; hcan := h; EM := no_faults |}
  | _ => None
  end.

(** A data frame with identifier 0x123. *)
Definition frame_123 : CAN_RxHeaderTypeDef := {| StdId := 0x123; RTR := 0; rx_DLC := 2 |}.

(** A receive entry as [CO_CANrxBufferInit] leaves it for identifier 0x123,
    mask 0x7FF, no RTR, object at 0x20000400 and handler at 0x08000101. *)
Definition rx_123 : CO_CANrx_t :=
  {| rx_ident := 0x48C; rx_mask := 0x1FFE; rx_object := 0x20000400;
     rx_pFunct := 0x08000101 |}.

(** The filter that passes every frame to FIFO 0. *)
Definition accept_all : CAN_FilterTypeDef :=
  {| FilterBank := 0; FilterMode := CAN_FILTERMODE_IDMASK;
     FilterScale := CAN_FILTERSCALE_32BIT; FilterIdHigh := 0; FilterIdLow := 0;
     FilterMaskIdHigh := 0; FilterMaskIdLow := 0;
     FilterFIFOAssignment := CAN_RX_FIFO0; FilterActivation := ENABLE;
     SlaveStartFilterBank := 14 |}.

(** The driver after [boot [zero_rx; zero_rx] []] and [CO_CANrxBufferInit] of
    entry 1 for identifier 0x123: entry 0 is as the initialisation left it. *)
Definition rx_second_configured : Driver :=
  {| CANmodule :=
       {| rxArray := [zero_rx; rx_123]; txArray := []; CANnormal := false;
          useCANrxFilters := false; bufferInhibitFlag := false;
          firstCANtxMessage := true; CANtxCount := 0; errOld := 0; em := NULL |};
     hcan := (HAL_CAN_ConfigFilter (set_Init (init_Init 40) zero_hcan) accept_all).2;
     EM := no_faults |}.

(** The driver after [boot [zero_rx; zero_rx] []] and [CO_CANrxBufferInit] of
    both entries: entry 0 for the identifier 0x123, entry 1 for every data
    frame (mask 0). *)
Definition rx_both_configured : option Driver :=
  d ← boot [zero_rx; zero_rx] [];
  d ← (CO_CANrxBufferInit (Some d) 0 0x123 0x7FF false 0x20000400 0x08000101).2;
  (CO_CANrxBufferInit (Some d) 1 0 0 false 0x20000800 0x08000201).2.

(** A driver with the single transmit slot [slot], the counter at [count],
    the bootup frame not yet sent, and a peripheral with [free] free
    mailboxes that answers [add] to the next transmit request. *)
Definition one_slot (slot : CO_CANtx_t) (count free : Z) (add : HAL_StatusTypeDef)
    : Driver :=
  {| CANmodule :=
       {| rxArray := []; txArray := [slot]; CANnormal := false;
          useCANrxFilters := false; bufferInhibitFlag := false;
          firstCANtxMessage := true; CANtxCount := count; errOld := 0; em := NULL |};
     hcan := peripheral free add 0 (set_Init (init_Init 40) zero_hcan);
     EM := no_faults |}.

(** The slot of [zero_tx] once a frame is queued in it. *)
Definition queued_tx : CO_CANtx_t := set_bufferFull true zero_tx.

(** [CO_CANtxBufferInit] on the module of a driver, as a total step. *)
Definition configure_tx (index : nat) (ident_arg : Z) (rtr : bool) (noOfBytes : Z)
    (sync : bool) (d : Driver) : Driver :=
  match CO_CANtxBufferInit (Some (CANmodule d)) index ident_arg rtr noOfBytes sync with
  | (_, Some m) => with_module m d
  | (_, None) => d
  end.

(** A move of the environment. *)
Definition environment (free : Z) (add : HAL_StatusTypeDef) (code : Z) (d : Driver)
    : Driver :=
  with_hcan (peripheral free add code (hcan d)) d.

(** The slot of [zero_tx] configured for a synchronous 8-byte frame with
    identifier 0x181. *)
Definition sync_tx : CO_CANtx_t :=
  {| ident := 0x604; DLC := 8; data := [0; 0; 0; 0; 0; 0; 0; 0];
     bufferFull := false; syncFlag := true |}.

(** The peripheral's answers to [HAL_CAN_Start] and
    [HAL_CAN_ActivateNotification]. *)
Definition start_answers (start notify : HAL_StatusTypeDef) (d : Driver) : Driver :=
  with_hcan
    {| Instance := Instance (hcan d);
       Init := Init (hcan d);
       ErrorCode := ErrorCode (hcan d);
       TxMailboxesFreeLevel := TxMailboxesFreeLevel (hcan d);
       AddTxMessage_status := AddTxMessage_status (hcan d);
       Start_status := start;
       ActivateNotification_status := notify;
       Init_status := Init_status (hcan d);
       ConfigFilter_status := ConfigFilter_status (hcan d);
       AddTxMessage_calls := AddTxMessage_calls (hcan d);
       ConfigFilter_calls := ConfigFilter_calls (hcan d) |}
    d.

(** The driver after [boot [] [zero_tx]]. *)
Definition booted : Driver := one_slot zero_tx 0 3 HAL_OK.

(** [booted] after the error check saw the warning bit (error code 1). *)
Definition warned : Driver :=
  {| CANmodule := set_errOld 1 (CANmodule booted);
     hcan := peripheral 3 HAL_OK 1 (hcan booted);
     EM :=
       {| errorStatus := [CO_EM_CAN_BUS_WARNING];
          em_calls :=
            [errorReset CO_EM_CAN_TX_BUS_OFF 1;
             errorReport CO_EM_CAN_BUS_WARNING CO_EMC_NO_ERROR 1] |} |}.

(** One move of the driver or of its environment in which no frame is sent
    on a slot that is still full and no such slot is configured anew. *)
Inductive step `{HAL_CAN_ERROR} : Driver → Driver → Prop :=
  | step_environment d free add code :
      step d (environment free add code d)
  | step_send d buffer b err d' :
      txArray (CANmodule d) !! buffer = Some b →
      bufferFull b = false →
      CO_CANsend d buffer = Some (err, d') →
      step d d'
  | step_polling_Tx d :
      step d (CO_CANpolling_Tx d)
  | step_clearPendingSyncPDOs d :
      step d (CO_CANclearPendingSyncPDOs d)
  | step_verifyErrors d :
      step d (CO_CANverifyErrors d)
  | step_setNormalMode d :
      step d (CO_CANsetNormalMode d).2
  | step_rxBufferInit d index ident_arg mask rtr object pFunct err d' :
      CO_CANrxBufferInit (Some d) index ident_arg mask rtr object pFunct = (err, Some d') →
      step d d'
  | step_txBufferInit d index ident_arg rtr noOfBytes sync b :
      txArray (CANmodule d) !! index = Some b →
      bufferFull b = false →
      step d (configure_tx index ident_arg rtr noOfBytes sync d).

(** The transmit side of a module is in order: the array fits a 16-bit
    [txSize] and the counter agrees with the flags. *)
Definition tx_in_order (m : CO_CANmodule_t) : Prop :=
  Z.of_nat (txSize m) < 2 ^ 16 ∧ tx_count_consistent m.

(** ** Further functions and notions *)

(** [CO_CANrxMsg_readIdent]. *)
Definition CO_CANrxMsg_readIdent (rxMsg : CO_CANrxMsg_t) : Z :=
  uint16_t (StdId (RxHeader rxMsg)).

(** The receive entry that CO_CANrxBufferInit writes for its arguments. *)
Definition rx_configured (ident_arg mask : Z) (rtr : bool) (object pFunct : Z)
    : CO_CANrx_t :=
  {| rx_object := object;
     rx_pFunct := pFunct;
     rx_ident :=
       uint16_t (Z.lor (uint16_t (Z.shiftl (Z.land ident_arg 0x07FF) 2))
                       (if rtr then 0x02 else 0));
     rx_mask :=
       uint16_t (Z.lor (uint16_t (Z.shiftl (Z.land mask 0x07FF) 2)) 0x02) |}.

(** The frames of the full slots, in array order, as [HAL_CAN_AddTxMessage]
    receives them. *)
Fixpoint queued_frames (buffers : list CO_CANtx_t)
    : list (CAN_TxHeaderTypeDef * list Z) :=
  match buffers with
  | [] => []
  | b :: rest =>
      if bufferFull b then (prepareTxHeader b, data b) :: queued_frames rest
      else queued_frames rest
  end.

(** The array with the first full slot released. *)
Fixpoint release_first (buffers : list CO_CANtx_t) : list CO_CANtx_t :=
  match buffers with
  | [] => []
  | b :: rest =>
      if bufferFull b then set_bufferFull false b :: rest
      else b :: release_first rest
  end.

(** A call is a fault report for [bit]. *)
Definition is_report_of (bit : CO_EM_errorStatusBits) (c : em_call) : bool :=
  match c with
  | errorReport b _ _ => bool_decide (b = bit)
  | errorReset _ _ => false
  end.

(** A drain at a mailbox-free notification: the environment has freed
    mailboxes ([e.1] of them are free now), the hardware error code is
    [e.2], and the peripheral will accept the next frame. *)
Definition drain_step (e : Z * Z) (d : Driver) : Driver :=
  CO_CANpolling_Tx (environment e.1 HAL_OK e.2 d).

(** One drain after each of the environment's moves [es], in order. *)
Definition drains (es : list (Z * Z)) (d : Driver) : Driver :=
  foldl (λ d e, drain_step e d) d es.

(** ** Receive dispatch *)

Lemma rx_search_first (msg : Z) (l : list CO_CANrx_t) (i : nat) (e : CO_CANrx_t) :
  first_at (rx_matches msg) l i e → ∀ k, rx_search msg l k = Some ((k + i)%nat, e).
Proof.
  revert i. induction l as [|b l IH]; intros i (Hi & He & Hlt) k.
  - discriminate Hi.
  - destruct i as [|i]; simpl in *.
    + injection Hi as ->. rewrite He. f_equal. f_equal. lia.
    + rewrite (Hlt 0%nat b) by (lia || reflexivity).
      rewrite (IH i); [f_equal; f_equal; lia|].
      split; [exact Hi|]. split; [exact He|].
      intros j y Hj Hy. apply (Hlt (S j) y); [lia | exact Hy].
Qed.

Lemma rx_search_none (msg : Z) (l : list CO_CANrx_t) :
  (∀ e, e ∈ l → rx_matches msg e = false) → ∀ k, rx_search msg l k = None.
Proof.
  induction l as [|b l IH]; intros Hall k; simpl; [reflexivity|].
  rewrite (Hall b) by apply list_elem_of_here.
  apply IH. intros e He. apply Hall. by apply list_elem_of_further.
Qed.

Lemma uint16_small (x : Z) : 0 ≤ x < 2 ^ 16 → uint16_t x = x.
Proof. intros Hx. unfold uint16_t. apply Z.mod_small. exact Hx. Qed.

Lemma rx_msg_packed (h : CAN_RxHeaderTypeDef) :
  0 ≤ StdId h < 2 ^ 14 → 0 ≤ RTR h < 2 ^ 16 →
  rx_msg h = Z.lor (Z.shiftl (StdId h) 2) (RTR h).
Proof.
  intros Hid Hrtr. unfold rx_msg.
  rewrite (uint16_small (RTR h)) by exact Hrtr.
  rewrite uint16_small; [reflexivity|].
  rewrite Z.shiftl_mul_pow2 by lia. lia.
Qed.

(** The dispatch for every module, configured or not: the packed value
    [(uint16_t)(StdId << 2) | (uint16_t)RTR] is compared with the entries in
    index order; for the first entry with [((msg ^ ident) & mask) == 0] the
    handler is called once, with the entry's object and the frame, when the
    entry has one, and nothing is called when its [pFunct] is [NULL]
    (line 589); nothing is called when no entry matches; there is never more
    than one call. *)
Lemma interrupt_Rx_first_match (m : CO_CANmodule_t) (header : CAN_RxHeaderTypeDef)
    (payload : list Z) :
  (∀ i e,
     first_at (λ e, Z.land (Z.lxor (rx_msg header) (rx_ident e)) (rx_mask e) =? 0)
       (rxArray m) i e →
     CO_CANinterrupt_Rx m header payload =
       if bool_decide (rx_pFunct e ≠ NULL) then [callback_of e header payload] else [])
  ∧ ((∀ e, e ∈ rxArray m →
        (Z.land (Z.lxor (rx_msg header) (rx_ident e)) (rx_mask e) =? 0) = false) →
     CO_CANinterrupt_Rx m header payload = [])
  ∧ (length (CO_CANinterrupt_Rx m header payload) ≤ 1)%nat.
Proof.
  split; [|split].
  - intros i e Hfirst. unfold CO_CANinterrupt_Rx.
    rewrite (rx_search_first _ _ i e Hfirst 0%nat). reflexivity.
  - intros Hnone. unfold CO_CANinterrupt_Rx.
    rewrite rx_search_none; [reflexivity | exact Hnone].
  - unfold CO_CANinterrupt_Rx.
    destruct (rx_search _ _ _) as [[i e]|]; [|simpl; lia].
    case_bool_decide; simpl; lia.
Qed.

(** CO_CANrxBufferInit keeps a configured array configured: the entry it
    writes has the handler it was given, and it writes no other. *)
Lemma rxBufferInit_keeps_configured (d d' : Driver) (index : nat)
    (ident_arg mask : Z) (rtr : bool) (object pFunct : Z) (err : CO_ReturnError_t) :
  rx_array_configured (rxArray (CANmodule d)) →
  CO_CANrxBufferInit (Some d) index ident_arg mask rtr object pFunct = (err, Some d') →
  rx_array_configured (rxArray (CANmodule d')).
Proof.
  intros Hconf Hrun. unfold CO_CANrxBufferInit in Hrun.
  destruct (bool_decide (object ≠ NULL)) eqn:Hobj; cbn [andb] in Hrun;
    [|by injection Hrun as _ <-].
  destruct (bool_decide (pFunct ≠ NULL)) eqn:Hfun; cbn [andb] in Hrun;
    [|by injection Hrun as _ <-].
  apply bool_decide_eq_true in Hfun.
  destruct (index <? rxSize (CANmodule d))%nat eqn:Hlt; [|by injection Hrun as _ <-].
  assert (Hnew :
    rx_array_configured
      (<[index := {| rx_ident :=
                       uint16_t (Z.lor (uint16_t (Z.shiftl (Z.land ident_arg 0x07FF) 2))
                                       (if rtr then 0x02 else 0));
                     rx_mask :=
                       uint16_t (Z.lor (uint16_t (Z.shiftl (Z.land mask 0x07FF) 2)) 0x02);
                     rx_object := object;
                     rx_pFunct := pFunct |}]> (rxArray (CANmodule d)))).
  { intros e He. apply list_elem_of_lookup_1 in He as [j Hj].
    destruct (decide (j = index)) as [->|Hne].
    - rewrite list_lookup_insert_eq in Hj
        by (apply Nat.ltb_lt in Hlt; exact Hlt).
      injection Hj as <-. exact Hfun.
    - rewrite list_lookup_insert_ne in Hj by congruence.
      apply Hconf. by apply (list_elem_of_lookup_2 _ j). }
  destruct (useCANrxFilters (CANmodule d)).
  - injection Hrun as _ <-. exact Hnew.
  - cbn in Hrun. destruct (is_HAL_OK _); injection Hrun as _ <-; exact Hnew.
Qed.

(** C1. For every module whose receive array is configured (every entry has
    a handler, see [rx_array_configured]) and every received frame (an
    identifier below [2^14], which every 11-bit identifier is, and an RTR
    field below [2^16]), CO_CANinterrupt_Rx compares [(StdId << 2) | RTR]
    with the entries in index order; for the first entry with
    [((packed ^ ident) & mask) == 0] it makes exactly one call: that entry's
    handler, with that entry's object and the frame (header, payload, and the
    copies of its identifier and length); it makes no call at all when no
    entry matches. *)
Theorem C1_rx_dispatch_configured (m : CO_CANmodule_t) (header : CAN_RxHeaderTypeDef)
    (payload : list Z) :
  rx_array_configured (rxArray m) →
  0 ≤ StdId header < 2 ^ 14 →
  0 ≤ RTR header < 2 ^ 16 →
  (∀ i e,
     first_at
       (λ e, Z.land (Z.lxor (Z.lor (Z.shiftl (StdId header) 2) (RTR header))
                       (rx_ident e)) (rx_mask e) =? 0)
       (rxArray m) i e →
     ∃ call,
       CO_CANinterrupt_Rx m header payload = [call]
       ∧ called_pFunct call = rx_pFunct e
       ∧ passed_object call = rx_object e
       ∧ RxHeader (passed_message call) = header
       ∧ msg_data (passed_message call) = payload
       ∧ msg_ident (passed_message call) = StdId header
       ∧ msg_DLC (passed_message call) = rx_DLC header mod 2 ^ 8)
  ∧ ((∀ e, e ∈ rxArray m →
        (Z.land (Z.lxor (Z.lor (Z.shiftl (StdId header) 2) (RTR header))
                   (rx_ident e)) (rx_mask e) =? 0) = false) →
     CO_CANinterrupt_Rx m header payload = []).
Proof.
  intros Hconf Hid Hrtr.
  rewrite <- (rx_msg_packed header Hid Hrtr).
  split.
  - intros i e Hfirst. unfold CO_CANinterrupt_Rx.
    rewrite (rx_search_first _ _ i e Hfirst 0%nat).
    assert (He : rx_pFunct e ≠ NULL).
    { apply Hconf. apply (list_elem_of_lookup_2 _ i). exact (proj1 Hfirst). }
    rewrite bool_decide_eq_true_2 by exact He.
    eexists. split; [reflexivity|]. cbn. tauto.
  - intros Hnone. unfold CO_CANinterrupt_Rx.
    rewrite rx_search_none; [reflexivity | exact Hnone].
Qed.

(** Both entries of [rx_both_configured] match the frame 0x123; the handler
    of entry 0 is the one called. *)
Lemma C1_rx_dispatch_configured_witness :
  ∃ d, rx_both_configured = Some d
  ∧ rxArray (CANmodule d) !! 1%nat
    = Some {| rx_ident := 0; rx_mask := 2; rx_object := 0x20000800;
              rx_pFunct := 0x08000201 |}
  ∧ ∃ call,
      CO_CANinterrupt_Rx (CANmodule d) frame_123 [0x11; 0x22] = [call]
      ∧ called_pFunct call = rx_pFunct rx_123
      ∧ passed_object call = rx_object rx_123
      ∧ RxHeader (passed_message call) = frame_123
      ∧ msg_data (passed_message call) = [0x11; 0x22]
      ∧ msg_ident (passed_message call) = StdId frame_123
      ∧ msg_DLC (passed_message call) = rx_DLC frame_123 mod 2 ^ 8.
Proof.
  eexists. split; [reflexivity|]. split; [reflexivity|].
  refine (proj1 (C1_rx_dispatch_configured _ frame_123 [0x11; 0x22] _ _ _) 0%nat rx_123 _).
  - intros e He. cbn in He.
    apply elem_of_cons in He as [->|He]; [discriminate|].
    apply list_elem_of_singleton in He as ->. discriminate.
  - cbn. lia.
  - cbn. lia.
  - split; [reflexivity|]. split; [reflexivity|].
    intros j y Hj. lia.
Defined.

(** The hypothesis on the array is needed. Entry 0 of [rx_second_configured]
    was never written by CO_CANrxBufferInit: as CO_CANmodule_init left it,
    its mask is 0 and it has no handler, so it matches the frame 0x123 ahead
    of entry 1 and nothing is called. *)
Lemma interrupt_Rx_entry_never_configured :
  ((λ d, CO_CANrxBufferInit (Some d) 1 0x123 0x7FF false 0x20000400 0x08000101)
     <$> boot [zero_rx; zero_rx] [])
  = Some (CO_ERROR_NO, Some rx_second_configured)
  ∧ first_at
      (λ e, Z.land (Z.lxor (Z.lor (Z.shiftl (StdId frame_123) 2) (RTR frame_123))
                      (rx_ident e)) (rx_mask e) =? 0)
      (rxArray (CANmodule rx_second_configured)) 0 zero_rx
  ∧ ¬ rx_array_configured (rxArray (CANmodule rx_second_configured))
  ∧ CO_CANinterrupt_Rx (CANmodule rx_second_configured) frame_123 [0x11; 0x22] = [].
Proof.
  split; [reflexivity|]. split; [|split; [|reflexivity]].
  - split; [reflexivity|]. split; [reflexivity|].
    intros j y Hj. lia.
  - intros Hconf. apply (Hconf zero_rx); [apply list_elem_of_here | reflexivity].
Qed.

(** ** Transmit queue: the counter and the flags *)

Lemma set_bufferFull_same (b : CO_CANtx_t) :
  set_bufferFull (bufferFull b) b = b.
Proof. destruct b. reflexivity. Qed.

Lemma count_full_le_length (l : list CO_CANtx_t) : (count_full l ≤ length l)%nat.
Proof. induction l as [|b l IH]; simpl; [lia|]. destruct (bufferFull b); lia. Qed.

Lemma count_full_insert (l : list CO_CANtx_t) (i : nat) (b x : CO_CANtx_t) :
  l !! i = Some b →
  (count_full (<[i := x]> l) + (if bufferFull b then 1 else 0)
   = count_full l + (if bufferFull x then 1 else 0))%nat.
Proof.
  revert i. induction l as [|y l IH]; intros i Hi; [discriminate Hi|].
  destruct i as [|i]; simpl in *.
  - injection Hi as ->. lia.
  - specialize (IH i Hi). lia.
Qed.

Lemma count_full_zero (l : list CO_CANtx_t) :
  (∀ b, b ∈ l → bufferFull b = false) → count_full l = 0%nat.
Proof.
  induction l as [|x l IH]; intros Hall; simpl; [reflexivity|].
  rewrite (Hall x) by apply list_elem_of_here.
  apply IH. intros b Hb. apply Hall. by apply list_elem_of_further.
Qed.

Lemma tx_search_first (l : list CO_CANtx_t) (i : nat) (b : CO_CANtx_t) :
  first_at bufferFull l i b → ∀ k, tx_search l k = Some ((k + i)%nat, b).
Proof.
  revert i. induction l as [|x l IH]; intros i (Hi & Hb & Hlt) k.
  - discriminate Hi.
  - destruct i as [|i]; simpl in *.
    + injection Hi as ->. rewrite Hb. f_equal. f_equal. lia.
    + rewrite (Hlt 0%nat x) by (lia || reflexivity).
      rewrite (IH i); [f_equal; f_equal; lia|].
      split; [exact Hi|]. split; [exact Hb|].
      intros j y Hj Hy. apply (Hlt (S j) y); [lia | exact Hy].
Qed.

Lemma tx_search_Some (l : list CO_CANtx_t) (k i : nat) (b : CO_CANtx_t) :
  tx_search l k = Some (i, b) → ∃ j, i = (k + j)%nat ∧ first_at bufferFull l j b.
Proof.
  revert k. induction l as [|x l IH]; intros k Hs; simpl in Hs; [discriminate|].
  destruct (bufferFull x) eqn:Hx.
  - injection Hs as <- <-. exists 0%nat. split; [lia|].
    split; [reflexivity|]. split; [exact Hx|]. intros j y Hj. lia.
  - destruct (IH _ Hs) as (j & -> & Hj & Hb & Hlt).
    exists (S j). split; [lia|]. split; [exact Hj|]. split; [exact Hb|].
    intros [|j'] y Hlt' Hy; simpl in Hy.
    + injection Hy as <-. exact Hx.
    + apply (Hlt j' y); [lia | exact Hy].
Qed.

Lemma tx_search_None (l : list CO_CANtx_t) (k : nat) :
  tx_search l k = None ↔ ∀ b, b ∈ l → bufferFull b = false.
Proof.
  revert k. induction l as [|x l IH]; intros k; simpl.
  - split; [|reflexivity]. intros _ b Hb. by apply elem_of_nil in Hb.
  - destruct (bufferFull x) eqn:Hx.
    + split; [discriminate|]. intros Hall.
      rewrite (Hall x) in Hx by apply list_elem_of_here. discriminate.
    + rewrite IH. split.
      * intros Hall b Hb. apply elem_of_cons in Hb as [->|Hb]; auto.
      * intros Hall b Hb. apply Hall. by apply list_elem_of_further.
Qed.

Lemma polling_Tx_consistent (d : Driver) :
  Z.of_nat (txSize (CANmodule d)) < 2 ^ 16 →
  tx_count_consistent (CANmodule d) →
  tx_count_consistent (CANmodule (CO_CANpolling_Tx d)).
Proof.
  intros Hsz Hc. unfold tx_count_consistent in *.
  unfold CO_CANpolling_Tx, HAL_CAN_GetTxMailboxesFreeLevel, HAL_CAN_AddTxMessage.
  destruct (0 <? TxMailboxesFreeLevel (hcan d)); [|exact Hc].
  cbn [CANtxCount set_bufferInhibitFlag set_firstCANtxMessage txArray].
  destruct (0 <? CANtxCount (CANmodule d)) eqn:Hpos; [|exact Hc].
  destruct (tx_search (txArray (CANmodule d)) 0) as [[i b]|] eqn:Hs.
  - destruct (is_HAL_OK (AddTxMessage_status (hcan d))); [|exact Hc].
    cbn [CANmodule CANtxCount txArray set_CANtxCount set_txArray
         set_bufferInhibitFlag set_firstCANtxMessage].
    apply tx_search_Some in Hs as (j & -> & Hj & Hb & _).
    pose proof (count_full_insert _ _ _ (set_bufferFull false b) Hj) as Hins.
    rewrite Hb in Hins.
    pose proof (count_full_le_length (txArray (CANmodule d))) as Hle.
    unfold txSize in Hsz.
    rewrite uint16_small by lia. simpl in Hins |- *. lia.
  - cbn [CANmodule CANtxCount txArray set_CANtxCount].
    rewrite count_full_zero; [reflexivity|].
    exact (proj1 (tx_search_None _ _) Hs).
Qed.

Lemma send_consistent (d d' : Driver) (buffer : nat) (b : CO_CANtx_t)
    (err : CO_ReturnError_t) :
  Z.of_nat (txSize (CANmodule d)) < 2 ^ 16 →
  txArray (CANmodule d) !! buffer = Some b →
  bufferFull b = false →
  CO_CANsend d buffer = Some (err, d') →
  tx_count_consistent (CANmodule d) →
  tx_count_consistent (CANmodule d').
Proof.
  intros Hsz Hb Hfree Hsend Hc. unfold tx_count_consistent in *.
  unfold CO_CANsend, HAL_CAN_AddTxMessage in Hsend. rewrite Hb, Hfree in Hsend.
  destruct ((CANtxCount (CANmodule d) =? 0)
            && (0 <? HAL_CAN_GetTxMailboxesFreeLevel (hcan d))).
  - injection Hsend as _ <-. exact Hc.
  - injection Hsend as _ <-.
    cbn [CANmodule CANtxCount txArray set_CANtxCount set_txArray].
    pose proof (count_full_insert _ _ _ (set_bufferFull true b) Hb) as Hins.
    rewrite Hfree in Hins. cbn [bufferFull set_bufferFull] in Hins.
    pose proof (count_full_le_length
                  (<[buffer := set_bufferFull true b]> (txArray (CANmodule d)))) as Hle.
    rewrite length_insert in Hle. unfold txSize in Hsz.
    rewrite uint16_small by lia. lia.
Qed.

Lemma uint16_sub_idem (c k : Z) : uint16_t (uint16_t c - k) = uint16_t (c - k).
Proof. unfold uint16_t. apply Zminus_mod_idemp_l. Qed.

Lemma uint16_add_idem (c k : Z) : uint16_t (uint16_t c + k) = uint16_t (c + k).
Proof. unfold uint16_t. apply Zplus_mod_idemp_l. Qed.

Lemma clearPendingSync_loop_spec (l : list CO_CANtx_t) (c t : Z) :
  clearPendingSync_loop l c t =
    (map clear_sync l,
     match count_pending_sync l with
     | O => c
     | S _ => uint16_t (c - Z.of_nat (count_pending_sync l))
     end,
     match count_pending_sync l with O => t | S _ => 2 end).
Proof.
  revert c t. induction l as [|b l IH]; intros c t; [reflexivity|].
  cbn [clearPendingSync_loop count_pending_sync map]. unfold clear_sync at 1.
  change (bufferFull b && syncFlag b) with (pending_sync b).
  destruct (pending_sync b).
  - rewrite IH. cbn [Nat.add]. destruct (count_pending_sync l) as [|n].
    + reflexivity.
    + rewrite uint16_sub_idem. do 3 f_equal. lia.
  - rewrite IH. reflexivity.
Qed.

Lemma count_full_clear_sync (l : list CO_CANtx_t) :
  (count_full (map clear_sync l) + count_pending_sync l = count_full l)%nat.
Proof.
  induction l as [|b l IH]; [reflexivity|].
  cbn [count_full count_pending_sync map]. unfold clear_sync at 1, pending_sync.
  destruct b as [i dl da [|] [|]]; simpl in *; lia.
Qed.

Lemma clear_sync_none_pending (l : list CO_CANtx_t) (b : CO_CANtx_t) :
  b ∈ map clear_sync l → pending_sync b = false.
Proof.
  intros Hb. apply list_elem_of_fmap in Hb as (x & -> & _).
  unfold clear_sync, pending_sync. destruct x as [i dl da [|] [|]]; reflexivity.
Qed.

Lemma clear_sync_nothing_pending (l : list CO_CANtx_t) :
  count_pending_sync l = 0%nat → map clear_sync l = l.
Proof.
  induction l as [|b l IH]; [reflexivity|].
  cbn [count_pending_sync map]. unfold clear_sync at 1.
  destruct (pending_sync b); [discriminate|].
  intros Hn. f_equal. apply IH. exact Hn.
Qed.

(** What CO_CANclearPendingSyncPDOs leaves, field by field. [scanned] tells
    whether the array was walked, [cleared] whether a slot was cleared. *)
Lemma clearPendingSyncPDOs_fields (d : Driver) :
  let m := CANmodule d in
  let d' := CO_CANclearPendingSyncPDOs d in
  let n := count_pending_sync (txArray m) in
  let scanned := nonzero (CANtxCount m) in
  let cleared := scanned && bool_decide (n ≠ 0%nat) in
  bufferInhibitFlag (CANmodule d') = false
  ∧ txArray (CANmodule d') = (if scanned then map clear_sync (txArray m) else txArray m)
  ∧ CANtxCount (CANmodule d') =
      (if cleared then uint16_t (CANtxCount m - Z.of_nat n) else CANtxCount m)
  ∧ em_calls (EM d') =
      em_calls (EM d) ++
        (if cleared
         then [errorReport CO_EM_TPDO_OUTSIDE_WINDOW CO_EMC_COMMUNICATION 2]
         else if bufferInhibitFlag m
              then [errorReport CO_EM_TPDO_OUTSIDE_WINDOW CO_EMC_COMMUNICATION 1]
              else [])
  ∧ hcan d' = hcan d
  ∧ rxArray (CANmodule d') = rxArray m
  ∧ firstCANtxMessage (CANmodule d') = firstCANtxMessage m
  ∧ CANnormal (CANmodule d') = CANnormal m
  ∧ errOld (CANmodule d') = errOld m.
Proof.
  intros m d' n scanned cleared. subst d' cleared scanned n m.
  unfold CO_CANclearPendingSyncPDOs.
  destruct (bufferInhibitFlag (CANmodule d)) eqn:Hinh;
    cbn [CANtxCount txArray set_bufferInhibitFlag];
    (destruct (nonzero (CANtxCount (CANmodule d))) eqn:Hnz;
     [ rewrite clearPendingSync_loop_spec;
       destruct (count_pending_sync (txArray (CANmodule d))) as [|k] eqn:Hk
     | ]);
    cbn; rewrite ?Hinh, ?app_nil_r; repeat split; reflexivity.
Qed.

Lemma clearPendingSyncPDOs_consistent (d : Driver) :
  Z.of_nat (txSize (CANmodule d)) < 2 ^ 16 →
  tx_count_consistent (CANmodule d) →
  tx_count_consistent (CANmodule (CO_CANclearPendingSyncPDOs d)).
Proof.
  intros Hsz Hc. unfold tx_count_consistent in *.
  destruct (clearPendingSyncPDOs_fields d) as (_ & Htx & Hcnt & _).
  cbv zeta in Htx, Hcnt. rewrite Htx, Hcnt.
  pose proof (count_full_clear_sync (txArray (CANmodule d))) as Hsum.
  pose proof (count_full_le_length (txArray (CANmodule d))) as Hle.
  unfold txSize in Hsz.
  destruct (nonzero (CANtxCount (CANmodule d))); cbn [andb]; [|exact Hc].
  case_bool_decide as Hn.
  - rewrite uint16_small by lia. lia.
  - rewrite Hc. f_equal. lia.
Qed.

Lemma verifyErrors_tx `{HAL_CAN_ERROR} (d : Driver) :
  txArray (CANmodule (CO_CANverifyErrors d)) = txArray (CANmodule d)
  ∧ CANtxCount (CANmodule (CO_CANverifyErrors d)) = CANtxCount (CANmodule d).
Proof. unfold CO_CANverifyErrors. case_bool_decide; split; reflexivity. Qed.

Lemma step_tx_in_order `{HAL_CAN_ERROR} (d d' : Driver) :
  step d d' → tx_in_order (CANmodule d) → tx_in_order (CANmodule d').
Proof.
  intros Hstep [Hsz Hc]. unfold tx_in_order.
  destruct Hstep as [d free add code | d buffer b err d' Hb Hfree Hsend | d | d | d | d
                    | d index ident_arg mask rtr object pFunct err d' Hrx
                    | d index ident_arg rtr noOfBytes sync b Hb Hfree].
  - split; [exact Hsz | exact Hc].
  - split; [|eapply send_consistent; eauto].
    unfold CO_CANsend in Hsend. rewrite Hb in Hsend.
    destruct ((CANtxCount (CANmodule d) =? 0) && _), (bufferFull b);
      cbn in Hsend; injection Hsend as _ <-; unfold txSize in *; cbn;
      rewrite ?length_insert; exact Hsz.
  - split; [|apply polling_Tx_consistent; assumption].
    unfold CO_CANpolling_Tx, HAL_CAN_AddTxMessage, txSize in *.
    repeat match goal with
           | |- context [if ?c then _ else _] => destruct c
           | |- context [match ?o with Some _ => _ | None => _ end] =>
               destruct o as [[? ?]|]
           end; cbn; rewrite ?length_insert; exact Hsz.
  - split; [|apply clearPendingSyncPDOs_consistent; assumption].
    destruct (clearPendingSyncPDOs_fields d) as (_ & Htx & _).
    cbv zeta in Htx. unfold txSize in *. rewrite Htx.
    destruct (nonzero _); rewrite ?length_map; exact Hsz.
  - destruct (verifyErrors_tx d) as [Htx Hcnt].
    unfold txSize, tx_count_consistent in *. rewrite Htx, Hcnt. split; assumption.
  - split; [exact Hsz | exact Hc].
  - unfold CO_CANrxBufferInit, HAL_CAN_ConfigFilter in Hrx. cbv zeta in Hrx.
    repeat match type of Hrx with
           | context [if ?c then _ else _] => destruct c
           end;
      injection Hrx as _ <-; split; assumption.
  - unfold configure_tx, CO_CANtxBufferInit. rewrite Hb.
    destruct (index <? txSize (CANmodule d))%nat; [|split; assumption].
    unfold txSize, tx_count_consistent in *.
    cbn [CANmodule with_module txArray CANtxCount set_txArray].
    rewrite length_insert. split; [exact Hsz|].
    pose proof (count_full_insert _ _ _ (init_tx ident_arg rtr noOfBytes sync b) Hb)
      as Hins.
    rewrite Hfree in Hins. cbn [bufferFull init_tx] in Hins. lia.
Qed.

(** X9. Along every run in which no frame is sent on a slot that is still
    full and no such slot is configured anew, from a state whose counter
    agrees with the flags (the state after CO_CANmodule_init is one),
    [CANtxCount] equals the number of full slots. *)
Lemma run_tx_in_order `{HAL_CAN_ERROR} (d d' : Driver) :
  rtc step d d' → tx_in_order (CANmodule d) → tx_count_consistent (CANmodule d').
Proof.
  intros Hrun Hd. enough (tx_in_order (CANmodule d')) as [_ Hc] by exact Hc.
  induction Hrun as [d | d d1 d' Hstep _ IH]; [exact Hd|].
  apply IH. eapply step_tx_in_order; eassumption.
Qed.

Lemma boot_tx_in_order (rx : list CO_CANrx_t) (tx : list CO_CANtx_t) (d : Driver) :
  Z.of_nat (length tx) < 2 ^ 16 → boot rx tx = Some d → tx_in_order (CANmodule d).
Proof.
  intros Hsz Hboot. unfold boot in Hboot. cbn in Hboot. injection Hboot as <-.
  unfold tx_in_order, txSize, tx_count_consistent. cbn.
  rewrite length_map. split; [exact Hsz|].
  rewrite count_full_zero; [reflexivity|].
  intros b Hb. apply list_elem_of_fmap in Hb as (x & -> & _). reflexivity.
Qed.

(** C2, at the input where the code leaves it. After initialisation with one
    transmit slot and no mailbox free, a first CO_CANsend queues the frame:
    one slot is full and [CANtxCount] is 1. A second CO_CANsend on the same,
    still full slot returns the overflow error and increments [CANtxCount]
    to 2 while one slot is full: the counter no longer equals the number of
    full slots. *)
Theorem C2_send_on_full_slot_miscounts :
  (environment 0 HAL_OK 0 <$> boot [] [zero_tx]) = Some (one_slot zero_tx 0 0 HAL_OK)
  ∧ CO_CANsend (one_slot zero_tx 0 0 HAL_OK) 0
    = Some (CO_ERROR_NO, one_slot queued_tx 1 0 HAL_OK)
  ∧ tx_count_consistent (CANmodule (one_slot queued_tx 1 0 HAL_OK))
  ∧ CO_CANsend (one_slot queued_tx 1 0 HAL_OK) 0
    = Some (CO_ERROR_TX_OVERFLOW, one_slot queued_tx 2 0 HAL_OK)
  ∧ CANtxCount (CANmodule (one_slot queued_tx 2 0 HAL_OK)) = 2
  ∧ count_full (txArray (CANmodule (one_slot queued_tx 2 0 HAL_OK))) = 1%nat
  ∧ ¬ tx_count_consistent (CANmodule (one_slot queued_tx 2 0 HAL_OK)).
Proof.
  repeat split; try reflexivity. unfold tx_count_consistent. simpl. lia.
Qed.

(** CO_CANtxBufferInit on a queued slot clears [bufferFull] and leaves
    [CANtxCount] alone: the counter is 1 and no slot is full. *)
Lemma txBufferInit_on_queued_slot_miscounts :
  configure_tx 0 0x181 false 8 true (one_slot queued_tx 1 0 HAL_OK)
  = one_slot sync_tx 1 0 HAL_OK
  ∧ ¬ tx_count_consistent (CANmodule (one_slot sync_tx 1 0 HAL_OK)).
Proof. split; [reflexivity|]. unfold tx_count_consistent. simpl. lia. Qed.

(** ** CO_CANsend *)

(** Sending again on the queued slot while no mailbox is free only moves the
    16-bit counter. *)
Lemma send_queued_again (c : Z) :
  send_step 0 (one_slot queued_tx (uint16_t c) 0 HAL_OK)
  = one_slot queued_tx (uint16_t (c + 1)) 0 HAL_OK.
Proof.
  unfold send_step, CO_CANsend, one_slot. cbn.
  rewrite andb_false_r, uint16_add_idem. reflexivity.
Qed.

Lemma send_queued_iter (n : nat) (c : Z) :
  Nat.iter n (send_step 0) (one_slot queued_tx (uint16_t c) 0 HAL_OK)
  = one_slot queued_tx (uint16_t (c + Z.of_nat n)) 0 HAL_OK.
Proof.
  induction n as [|n IH].
  - replace (c + Z.of_nat 0) with c by lia. reflexivity.
  - rewrite Nat.iter_succ, IH, send_queued_again.
    replace (c + Z.of_nat n + 1) with (c + Z.of_nat (S n)) by lia. reflexivity.
Qed.

(** C3 fails where the frame goes to the hardware directly and the hardware
    refuses it. The state has the slot full with [CANtxCount] at 0: after
    initialisation one send queues the frame while no mailbox is free, and
    after 65535 further sends on the queued slot the 16-bit counter has
    wrapped. With a mailbox free and [HAL_CAN_AddTxMessage] failing,
    CO_CANsend on the full slot returns the HAL error, not the overflow
    error. *)
Lemma C3_hal_error_replaces_overflow :
  (λ d, send_step 0 (environment 0 HAL_OK 0 d)) <$> boot [] [zero_tx]
  = Some (one_slot queued_tx 1 0 HAL_OK)
  ∧ environment 1 HAL_ERROR 0
      (Nat.iter (Z.to_nat 65535) (send_step 0) (one_slot queued_tx 1 0 HAL_OK))
    = one_slot queued_tx 0 1 HAL_ERROR
  ∧ txArray (CANmodule (one_slot queued_tx 0 1 HAL_ERROR)) !! 0%nat = Some queued_tx
  ∧ bufferFull queued_tx = true
  ∧ fst <$> CO_CANsend (one_slot queued_tx 0 1 HAL_ERROR) 0 = Some CO_ERROR_HAL
  ∧ fst <$> CO_CANsend (one_slot queued_tx 0 1 HAL_ERROR) 0 ≠ Some CO_ERROR_TX_OVERFLOW.
Proof.
  split; [reflexivity|]. split; [|repeat split; (reflexivity || discriminate)].
  change (one_slot queued_tx 1 0 HAL_OK) with (one_slot queued_tx (uint16_t 1) 0 HAL_OK).
  rewrite send_queued_iter, Z2Nat.id by lia. reflexivity.
Qed.

(** C3, as the code has it. CO_CANsend on a slot of the array reports the
    transmit-overflow fault exactly when the slot is already full and
    [firstCANtxMessage] is false. What it returns: the HAL error exactly
    when the frame is handed to the hardware directly ([CANtxCount] is 0 and
    a mailbox is free) and the hardware refuses it, whether the slot was
    full or not; otherwise the overflow error exactly when the slot was
    already full, and no error when it was not. On a full slot the array is
    left as it is, so the slot is still full and holds the frame it held;
    no slot ever changes in anything but [bufferFull], and no slot but the
    one sent on changes at all. *)
Theorem C3_send_overflow (d : Driver) (buffer : nat) (b : CO_CANtx_t) :
  txArray (CANmodule d) !! buffer = Some b →
  ∃ err d',
    CO_CANsend d buffer = Some (err, d')
    ∧ em_calls (EM d') =
        em_calls (EM d) ++
          (if bufferFull b && negb (firstCANtxMessage (CANmodule d))
           then [errorReport CO_EM_CAN_TX_OVERFLOW CO_EMC_CAN_OVERRUN (ident b)]
           else [])
    ∧ (err = CO_ERROR_TX_OVERFLOW ↔
         bufferFull b = true
         ∧ ¬ (CANtxCount (CANmodule d) = 0
              ∧ 0 < TxMailboxesFreeLevel (hcan d)
              ∧ AddTxMessage_status (hcan d) ≠ HAL_OK))
    ∧ (bufferFull b = true → txArray (CANmodule d') = txArray (CANmodule d))
    ∧ (∀ i s, txArray (CANmodule d) !! i = Some s →
         ∃ s', txArray (CANmodule d') !! i = Some s' ∧ same_frame s s')
    ∧ (err = CO_ERROR_HAL ↔
         CANtxCount (CANmodule d) = 0
         ∧ 0 < TxMailboxesFreeLevel (hcan d)
         ∧ AddTxMessage_status (hcan d) ≠ HAL_OK)
    ∧ (err = CO_ERROR_NO ↔
         bufferFull b = false
         ∧ ¬ (CANtxCount (CANmodule d) = 0
              ∧ 0 < TxMailboxesFreeLevel (hcan d)
              ∧ AddTxMessage_status (hcan d) ≠ HAL_OK))
    ∧ (bufferFull b = true →
         ∃ s', txArray (CANmodule d') !! buffer = Some s'
               ∧ bufferFull s' = true ∧ same_frame b s')
    ∧ (∀ i, i ≠ buffer → txArray (CANmodule d') !! i = txArray (CANmodule d) !! i).
Proof.
  intros Hb. unfold CO_CANsend, HAL_CAN_AddTxMessage, HAL_CAN_GetTxMailboxesFreeLevel.
  rewrite Hb.
  destruct ((CANtxCount (CANmodule d) =? 0) && (0 <? TxMailboxesFreeLevel (hcan d)))
    eqn:Hdirect.
  - apply andb_true_iff in Hdirect as [Hc%Z.eqb_eq Hf%Z.ltb_lt].
    destruct (bufferFull b) eqn:Hfull; eexists _, _; (split; [reflexivity|]);
      cbn [EM CANmodule txArray set_bufferInhibitFlag andb].
    + split.
      { destruct (firstCANtxMessage (CANmodule d)); cbn; [by rewrite app_nil_r | done]. }
      split.
      { destruct (AddTxMessage_status (hcan d)); cbn; split;
          try discriminate; try (intros [_ Hn]; exfalso; apply Hn; done);
          intros _; split; [done | intros (_ & _ & Hn); done]. }
      split; [done|]. split; [intros i s Hs; exists s; done|].
      split.
      { destruct (AddTxMessage_status (hcan d)); cbn; split;
          try discriminate; try (intros (_ & _ & Hn); done); done. }
      split.
      { destruct (AddTxMessage_status (hcan d)); cbn; split;
          try discriminate; intros [? _]; discriminate. }
      split; [|done]. intros _. exists b. rewrite Hfull. done.
    + split; [by rewrite app_nil_r|]. split.
      { destruct (AddTxMessage_status (hcan d)); cbn; split;
          try discriminate; intros [? _]; discriminate. }
      split; [discriminate|]. split; [intros i s Hs; exists s; done|].
      split.
      { destruct (AddTxMessage_status (hcan d)); cbn; split;
          try discriminate; try (intros (_ & _ & Hn); done); done. }
      split.
      { destruct (AddTxMessage_status (hcan d)); cbn; split;
          try discriminate; try (intros [_ Hn]; exfalso; apply Hn; done);
          intros _; split; [done | intros (_ & _ & Hn); done]. }
      split; [discriminate | done].
  - assert (Hnot : ¬ (CANtxCount (CANmodule d) = 0 ∧ 0 < TxMailboxesFreeLevel (hcan d))).
    { intros [Hc Hf]. apply Z.eqb_eq in Hc. apply Z.ltb_lt in Hf.
      rewrite Hc, Hf in Hdirect. discriminate. }
    assert (Hsame : ∀ i s, txArray (CANmodule d) !! i = Some s →
              ∃ s', <[buffer := set_bufferFull true b]> (txArray (CANmodule d)) !! i
                    = Some s' ∧ same_frame s s').
    { intros i s Hs. destruct (decide (buffer = i)) as [->|Hne].
      - rewrite list_lookup_insert_eq by (eapply lookup_lt_Some; exact Hs).
        eexists; split; [reflexivity|]. rewrite Hb in Hs. injection Hs as <-. done.
      - rewrite list_lookup_insert_ne by exact Hne. exists s. done. }
    assert (Hother : ∀ i, i ≠ buffer →
              <[buffer := set_bufferFull true b]> (txArray (CANmodule d)) !! i
              = txArray (CANmodule d) !! i).
    { intros i Hi. apply list_lookup_insert_ne. congruence. }
    assert (Hslot : ∃ s',
              <[buffer := set_bufferFull true b]> (txArray (CANmodule d)) !! buffer
              = Some s' ∧ bufferFull s' = true ∧ same_frame b s').
    { eexists. split; [apply list_lookup_insert_eq; eapply lookup_lt_Some; exact Hb|].
      done. }
    destruct (bufferFull b) eqn:Hfull; eexists _, _; (split; [reflexivity|]);
      cbn [EM CANmodule txArray set_CANtxCount set_txArray andb].
    + split.
      { destruct (firstCANtxMessage (CANmodule d)); cbn; [by rewrite app_nil_r | done]. }
      split.
      { split; [intros _|done]. split; [done|]. intros (Hc & Hf & _). apply Hnot. done. }
      split.
      { intros _. rewrite <- Hfull, set_bufferFull_same. apply list_insert_id. exact Hb. }
      split; [exact Hsame|].
      split; [split; [discriminate | intros (Hc & Hf & _); exfalso; apply Hnot; done]|].
      split; [split; [discriminate | intros [? _]; discriminate]|].
      split; [intros _; exact Hslot | exact Hother].
    + split; [by rewrite app_nil_r|]. split.
      { split; [discriminate | intros [? _]; discriminate]. }
      split; [discriminate|]. split; [exact Hsame|].
      split; [split; [discriminate | intros (Hc & Hf & _); exfalso; apply Hnot; done]|].
      split.
      { split; [intros _|done]. split; [done|]. intros (Hc & Hf & _). apply Hnot. done. }
      split; [discriminate | exact Hother].
Qed.

(** A second send on the queued slot returns the overflow error, and the
    slot still holds the queued frame. *)
Lemma C3_send_overflow_witness :
  ∃ err d',
    CO_CANsend (one_slot queued_tx 1 0 HAL_OK) 0 = Some (err, d')
    ∧ err = CO_ERROR_TX_OVERFLOW
    ∧ txArray (CANmodule d') = [queued_tx].
Proof.
  destruct (C3_send_overflow (one_slot queued_tx 1 0 HAL_OK) 0 queued_tx eq_refl)
    as (err & d' & Hsend & _ & Hret & Htx & _).
  exists err, d'. split; [exact Hsend|]. split; [|exact (Htx eq_refl)].
  apply Hret. split; [reflexivity|]. intros (Hc & _). discriminate Hc.
Defined.

(** ** CO_CANclearPendingSyncPDOs *)

(** C4 fails on the auxiliary datum. One synchronous frame is queued (slot 0
    configured by CO_CANtxBufferInit, then sent while no mailbox is free) and
    the inhibit flag is clear. CO_CANclearPendingSyncPDOs clears that one
    slot, takes [CANtxCount] from 1 to 0, and reports once with the datum 2:
    one deletion, datum 2. And "every module state" is too wide: with the
    same slot queued and [CANtxCount] at 0 the array is not scanned, the slot
    stays full and nothing is reported. *)
Lemma C4_datum_is_not_the_count :
  ((λ d, send_step 0 (environment 0 HAL_OK 0 (configure_tx 0 0x181 false 8 true d)))
     <$> boot [] [zero_tx])
  = Some (one_slot (set_bufferFull true sync_tx) 1 0 HAL_OK)
  ∧ bufferInhibitFlag (CANmodule (one_slot (set_bufferFull true sync_tx) 1 0 HAL_OK)) = false
  ∧ count_pending_sync (txArray (CANmodule (one_slot (set_bufferFull true sync_tx) 1 0 HAL_OK)))
    = 1%nat
  ∧ CANmodule (CO_CANclearPendingSyncPDOs (one_slot (set_bufferFull true sync_tx) 1 0 HAL_OK))
    = CANmodule (one_slot sync_tx 0 0 HAL_OK)
  ∧ em_calls (EM (CO_CANclearPendingSyncPDOs (one_slot (set_bufferFull true sync_tx) 1 0 HAL_OK)))
    = [errorReport CO_EM_TPDO_OUTSIDE_WINDOW CO_EMC_COMMUNICATION 2]
  ∧ em_calls (EM (CO_CANclearPendingSyncPDOs (one_slot (set_bufferFull true sync_tx) 1 0 HAL_OK)))
    ≠ [errorReport CO_EM_TPDO_OUTSIDE_WINDOW CO_EMC_COMMUNICATION (Z.of_nat 1)]
  ∧ CO_CANclearPendingSyncPDOs (one_slot (set_bufferFull true sync_tx) 0 0 HAL_OK)
    = one_slot (set_bufferFull true sync_tx) 0 0 HAL_OK.
Proof.
  repeat split; try reflexivity. discriminate.
Qed.

(** C4, as the code has it. In every state CO_CANclearPendingSyncPDOs clears
    the inhibit flag; when [CANtxCount] is not 0 it clears [bufferFull] on
    every slot with [bufferFull && syncFlag] and takes their number from the
    16-bit [CANtxCount], and when [CANtxCount] is 0 it leaves the array and
    the counter alone. It reports once when a slot was cleared, with the
    datum 2, once when only the inhibit flag was set, with the datum 1, and
    not otherwise: the datum tells where frames were discarded, not how
    many. Whenever [CANtxCount] is at least the number of slots with
    [bufferFull && syncFlag], every such slot is cleared and the counter
    drops by exactly their number. *)
Theorem C4_clearPendingSyncPDOs (d : Driver) :
  let m := CANmodule d in
  let d' := CO_CANclearPendingSyncPDOs d in
  let n := count_pending_sync (txArray m) in
  let cleared := nonzero (CANtxCount m) && bool_decide (n ≠ 0%nat) in
  bufferInhibitFlag (CANmodule d') = false
  ∧ txArray (CANmodule d') =
      (if nonzero (CANtxCount m) then map clear_sync (txArray m) else txArray m)
  ∧ CANtxCount (CANmodule d') =
      (if cleared then uint16_t (CANtxCount m - Z.of_nat n) else CANtxCount m)
  ∧ em_calls (EM d') =
      em_calls (EM d) ++
        (if cleared
         then [errorReport CO_EM_TPDO_OUTSIDE_WINDOW CO_EMC_COMMUNICATION 2]
         else if bufferInhibitFlag m
              then [errorReport CO_EM_TPDO_OUTSIDE_WINDOW CO_EMC_COMMUNICATION 1]
              else [])
  ∧ (Z.of_nat n ≤ CANtxCount m < 2 ^ 16 →
       txArray (CANmodule d') = map clear_sync (txArray m)
       ∧ (∀ b, b ∈ txArray (CANmodule d') → pending_sync b = false)
       ∧ count_full (txArray (CANmodule d')) = (count_full (txArray m) - n)%nat
       ∧ CANtxCount (CANmodule d') = CANtxCount m - Z.of_nat n).
Proof.
  intros m d' n cleared.
  destruct (clearPendingSyncPDOs_fields d) as (Hinh & Htx & Hcnt & Hem & _).
  cbv zeta in Htx, Hcnt, Hem. fold m n cleared d' in Htx, Hcnt, Hem.
  split; [exact Hinh|]. split; [exact Htx|]. split; [exact Hcnt|]. split; [exact Hem|].
  intros Hrange.
  assert (Hall : txArray (CANmodule d') = map clear_sync (txArray m)).
  { rewrite Htx. destruct (nonzero (CANtxCount m)) eqn:Hnz; [reflexivity|].
    symmetry. apply clear_sync_nothing_pending.
    apply negb_false_iff, Z.eqb_eq in Hnz. fold n. lia. }
  split; [exact Hall|]. split.
  { intros b Hb. rewrite Hall in Hb. eapply clear_sync_none_pending. exact Hb. }
  split.
  { rewrite Hall. pose proof (count_full_clear_sync (txArray m)) as Hsum.
    fold n in Hsum. lia. }
  rewrite Hcnt. subst cleared. destruct (nonzero (CANtxCount m)) eqn:Hnz; cbn [andb].
  - case_bool_decide as Hn; [apply uint16_small; lia | lia].
  - apply negb_false_iff, Z.eqb_eq in Hnz. lia.
Qed.

(** Two queued frames, one synchronous: the synchronous one is cleared. *)
Lemma C4_clearPendingSyncPDOs_witness :
  txArray (CANmodule (CO_CANclearPendingSyncPDOs
             (with_module
                (set_CANtxCount 2
                   (set_txArray [queued_tx; set_bufferFull true sync_tx] zero_module))
                (one_slot zero_tx 0 0 HAL_OK))))
  = [queued_tx; sync_tx].
Proof.
  apply (proj2 (proj2 (proj2 (proj2
           (C4_clearPendingSyncPDOs
              (with_module
                 (set_CANtxCount 2
                    (set_txArray [queued_tx; set_bufferFull true sync_tx] zero_module))
                 (one_slot zero_tx 0 0 HAL_OK))))))).
  simpl. lia.
Defined.

(** ** CO_CANpolling_Tx *)

Lemma polling_Tx_no_mailbox (d : Driver) :
  TxMailboxesFreeLevel (hcan d) ≤ 0 → CO_CANpolling_Tx d = d.
Proof.
  intros Hfree. unfold CO_CANpolling_Tx, HAL_CAN_GetTxMailboxesFreeLevel.
  destruct (0 <? TxMailboxesFreeLevel (hcan d)) eqn:Hlt; [|reflexivity].
  apply Z.ltb_lt in Hlt. lia.
Qed.

(** C5. With a mailbox free, CO_CANpolling_Tx clears [firstCANtxMessage] and
    the inhibit flag and leaves the emergency object alone. If [CANtxCount]
    is positive and slot [i] is the first full one, the inhibit flag becomes
    that slot's [syncFlag] and exactly one frame is passed to
    [HAL_CAN_AddTxMessage]: the slot's data under a header with the
    identifier [ident >> 2], the RTR field [ident & 2], the slot's [DLC] and
    no extended identifier; no other slot changes. When the HAL accepts the
    frame, slot [i] ends with [bufferFull] false, holding the same frame,
    and [CANtxCount] drops by one; when it refuses, the array and the
    counter stay as they were, slot [i] still full. If no slot is full,
    nothing is passed to the hardware and [CANtxCount] ends at 0. If
    [CANtxCount] is 0 nothing is passed to the hardware and the array stays
    as it was. *)
Theorem C5_polling_Tx (d : Driver) :
  0 < TxMailboxesFreeLevel (hcan d) →
  0 ≤ CANtxCount (CANmodule d) < 2 ^ 16 →
  let m := CANmodule d in
  let d' := CO_CANpolling_Tx d in
  firstCANtxMessage (CANmodule d') = false
  ∧ EM d' = EM d
  ∧ (∀ i b, 0 < CANtxCount m → first_at bufferFull (txArray m) i b →
       bufferInhibitFlag (CANmodule d') = syncFlag b
       ∧ (∃ h,
            AddTxMessage_calls (hcan d') = AddTxMessage_calls (hcan d) ++ [(h, data b)]
            ∧ tx_StdId h = Z.shiftr (ident b) 2
            ∧ tx_ExtId h = 0
            ∧ tx_RTR h = Z.land (ident b) 2
            ∧ tx_DLC h = DLC b)
       ∧ length (txArray (CANmodule d')) = length (txArray m)
       ∧ (∀ j, j ≠ i → txArray (CANmodule d') !! j = txArray m !! j)
       ∧ (AddTxMessage_status (hcan d) = HAL_OK →
            (∃ b', txArray (CANmodule d') !! i = Some b'
                   ∧ bufferFull b' = false ∧ same_frame b b')
            ∧ CANtxCount (CANmodule d') = CANtxCount m - 1)
       ∧ (AddTxMessage_status (hcan d) ≠ HAL_OK →
            txArray (CANmodule d') = txArray m
            ∧ (∃ b', txArray (CANmodule d') !! i = Some b'
                     ∧ bufferFull b' = true ∧ same_frame b b')
            ∧ CANtxCount (CANmodule d') = CANtxCount m))
  ∧ ((∀ b, b ∈ txArray m → bufferFull b = false) →
       bufferInhibitFlag (CANmodule d') = false
       ∧ hcan d' = hcan d
       ∧ txArray (CANmodule d') = txArray m
       ∧ CANtxCount (CANmodule d') = 0)
  ∧ (CANtxCount m = 0 →
       bufferInhibitFlag (CANmodule d') = false
       ∧ hcan d' = hcan d
       ∧ txArray (CANmodule d') = txArray m
       ∧ CANtxCount (CANmodule d') = 0).
Proof.
  intros Hfree Hrange m d'. subst d' m.
  unfold CO_CANpolling_Tx, HAL_CAN_GetTxMailboxesFreeLevel, HAL_CAN_AddTxMessage.
  apply Z.ltb_lt in Hfree. rewrite Hfree.
  cbn [CANtxCount set_bufferInhibitFlag set_firstCANtxMessage txArray].
  destruct (0 <? CANtxCount (CANmodule d)) eqn:Hpos.
  - apply Z.ltb_lt in Hpos.
    destruct (tx_search (txArray (CANmodule d)) 0) as [[j x]|] eqn:Hs.
    + split; [by destruct (is_HAL_OK _)|]. split; [by destruct (is_HAL_OK _)|].
      split; [|split].
      * intros i b _ Hfirst.
        rewrite (tx_search_first _ _ _ Hfirst 0%nat) in Hs. injection Hs as <- <-.
        destruct Hfirst as (Hi & Hfull & _).
        pose proof (lookup_lt_Some _ _ _ Hi) as Hlen.
        destruct (AddTxMessage_status (hcan d)) eqn:Hst; cbn;
          (split; [reflexivity|]);
          (split; [eexists; split; [reflexivity|]; cbn; done|]);
          rewrite ?length_insert; (split; [reflexivity|]);
          (split; [intros k Hk; rewrite ?list_lookup_insert_ne by congruence;
                   reflexivity|]);
          (split; [intros Hok; try discriminate Hok | intros Hko; try done]).
        -- split; [|apply uint16_small; lia].
           eexists. split; [by apply list_lookup_insert_eq|]. done.
        -- split; [reflexivity|]. split; [|reflexivity]. exists b. done.
        -- split; [reflexivity|]. split; [|reflexivity]. exists b. done.
        -- split; [reflexivity|]. split; [|reflexivity]. exists b. done.
      * intros Hnone. apply (proj2 (tx_search_None _ 0%nat)) in Hnone.
        rewrite Hnone in Hs. discriminate Hs.
      * intros H0. lia.
    + cbn. split; [reflexivity|]. split; [reflexivity|]. split; [|split].
      * intros i b _ Hfirst.
        rewrite (tx_search_first _ _ _ Hfirst 0%nat) in Hs. discriminate Hs.
      * intros _. done.
      * intros H0. lia.
  - apply Z.ltb_ge in Hpos. cbn. split; [reflexivity|]. split; [reflexivity|].
    split; [|split].
    + intros i b Hgt. lia.
    + intros _. repeat split; lia.
    + intros H0. done.
Qed.

(** One queued frame and three free mailboxes: the frame goes out and the
    slot is free again. *)
Lemma C5_polling_Tx_witness :
  (∃ b', txArray (CANmodule (CO_CANpolling_Tx (one_slot queued_tx 1 3 HAL_OK))) !! 0%nat
         = Some b'
         ∧ bufferFull b' = false ∧ same_frame queued_tx b')
  ∧ CANtxCount (CANmodule (CO_CANpolling_Tx (one_slot queued_tx 1 3 HAL_OK))) = 0.
Proof.
  assert (Hfree : 0 < TxMailboxesFreeLevel (hcan (one_slot queued_tx 1 3 HAL_OK)))
    by (simpl; lia).
  assert (Hrange : 0 ≤ CANtxCount (CANmodule (one_slot queued_tx 1 3 HAL_OK)) < 2 ^ 16)
    by (simpl; lia).
  destruct (C5_polling_Tx (one_slot queued_tx 1 3 HAL_OK) Hfree Hrange)
    as (_ & _ & Hfirst & _).
  destruct (Hfirst 0%nat queued_tx) as (_ & _ & _ & _ & Hok & _).
  - simpl. lia.
  - split; [reflexivity|]. split; [reflexivity|]. intros j y Hj. lia.
  - exact (Hok eq_refl).
Defined.

(** ** CO_CANsetNormalMode *)

Lemma setNormalMode_result (d : Driver) :
  CANnormal (CANmodule (CO_CANsetNormalMode d).2) = true
  ∧ ((CO_CANsetNormalMode d).1 = CO_ERROR_NO ↔
       Start_status (hcan d) = HAL_OK ∧ ActivateNotification_status (hcan d) = HAL_OK)
  ∧ ((CO_CANsetNormalMode d).1 = CO_ERROR_HAL ↔
       Start_status (hcan d) ≠ HAL_OK ∨ ActivateNotification_status (hcan d) ≠ HAL_OK).
Proof.
  unfold CO_CANsetNormalMode, HAL_CAN_Start, HAL_CAN_ActivateNotification.
  split; [reflexivity|].
  destruct (Start_status (hcan d)), (ActivateNotification_status (hcan d)); cbn;
    intuition congruence.
Qed.

(** C6, at the input where the code leaves it. On the freshly initialised
    driver, with [HAL_CAN_Start] failing, CO_CANsetNormalMode returns the HAL
    error and has set [CANnormal], which was false before the call. *)
Theorem C6_normal_flag_set_on_failure :
  boot [] [zero_tx] = Some booted
  ∧ CANnormal (CANmodule (start_answers HAL_ERROR HAL_OK booted)) = false
  ∧ (CO_CANsetNormalMode (start_answers HAL_ERROR HAL_OK booted)).1 = CO_ERROR_HAL
  ∧ CANnormal (CANmodule (CO_CANsetNormalMode (start_answers HAL_ERROR HAL_OK booted)).2)
    = true.
Proof. repeat split. Qed.

(** ** CO_CANverifyErrors *)

Section VerifyErrors.

Context `{HAL_CAN_ERROR}.

Lemma verifyErrors_errOld (d : Driver) :
  errOld (CANmodule (CO_CANverifyErrors d)) = ErrorCode (hcan d).
Proof.
  unfold CO_CANverifyErrors. case_bool_decide as Hne; [reflexivity|].
  destruct (decide (errOld (CANmodule d) = ErrorCode (hcan d))); done.
Qed.

Lemma verifyErrors_hcan (d : Driver) : hcan (CO_CANverifyErrors d) = hcan d.
Proof. unfold CO_CANverifyErrors. case_bool_decide; reflexivity. Qed.

Lemma verifyErrors_same (d : Driver) :
  errOld (CANmodule d) = ErrorCode (hcan d) → CO_CANverifyErrors d = d.
Proof.
  intros Hsame. unfold CO_CANverifyErrors. case_bool_decide; [done | reflexivity].
Qed.

(** C7. When the error code equals [errOld], CO_CANverifyErrors changes
    nothing: no call reaches the emergency object. After any call [errOld]
    holds the code just read, so every later call made while the code still
    has that value and [errOld] has not been written is again without
    effect, as is any number of immediately repeated calls. *)
Theorem C7_verifyErrors_unchanged_bitmask (d : Driver) :
  (errOld (CANmodule d) = ErrorCode (hcan d) →
     CO_CANverifyErrors d = d
     ∧ em_calls (EM (CO_CANverifyErrors d)) = em_calls (EM d))
  ∧ (∀ later,
       ErrorCode (hcan later) = ErrorCode (hcan d) →
       errOld (CANmodule later) = errOld (CANmodule (CO_CANverifyErrors d)) →
       CO_CANverifyErrors later = later)
  ∧ (∀ n, em_calls (EM (Nat.iter n CO_CANverifyErrors (CO_CANverifyErrors d)))
          = em_calls (EM (CO_CANverifyErrors d))).
Proof.
  split; [|split].
  - intros Hsame. rewrite verifyErrors_same by exact Hsame. done.
  - intros later Hcode Hold. apply verifyErrors_same.
    rewrite Hold, verifyErrors_errOld. done.
  - intros n. induction n as [|n IH]; [reflexivity|].
    rewrite Nat.iter_succ_r, verifyErrors_same; [exact IH|].
    rewrite verifyErrors_errOld, verifyErrors_hcan. reflexivity.
Qed.

(** The test the code makes for "no error": when the code changed, bus-off
    is clear and [HalCanErrorCode & HAL_CAN_ERROR_NONE] is not zero, a reset
    of the warning fault is issued. *)
Lemma verifyErrors_resets_warning_on_NONE_bits (d : Driver) :
  errOld (CANmodule d) ≠ ErrorCode (hcan d) →
  Z.land (ErrorCode (hcan d)) HAL_CAN_ERROR_BOF = 0 →
  Z.land (ErrorCode (hcan d)) HAL_CAN_ERROR_NONE ≠ 0 →
  errorReset CO_EM_CAN_BUS_WARNING (ErrorCode (hcan d))
    ∈ em_calls (EM (CO_CANverifyErrors d)).
Proof.
  intros Hne Hbof Hnone. unfold CO_CANverifyErrors.
  rewrite bool_decide_true by exact Hne. unfold nonzero.
  rewrite Hbof. apply Z.eqb_neq in Hnone. rewrite Hnone. cbn [negb Z.eqb EM].
  destruct (_ || _); cbn [em_calls CO_errorReport CO_errorReset];
    rewrite ?elem_of_app, ?list_elem_of_singleton; auto.
Qed.

(** X16. With an empty [HAL_CAN_ERROR_NONE] that test never succeeds: no
    call of CO_CANverifyErrors adds a reset of the warning fault. *)
Lemma verifyErrors_never_resets_warning (d : Driver) :
  HAL_CAN_ERROR_NONE = 0 →
  filter (λ c, is_reset_of CO_EM_CAN_BUS_WARNING c = true)
    (em_calls (EM (CO_CANverifyErrors d)))
  = filter (λ c, is_reset_of CO_EM_CAN_BUS_WARNING c = true) (em_calls (EM d)).
Proof.
  intros Hnone. unfold CO_CANverifyErrors. rewrite Hnone, Z.land_0_r.
  case_bool_decide; [|reflexivity]. cbn [nonzero Z.eqb negb EM].
  repeat match goal with
         | |- context [if ?c then _ else _] => destruct c
         end;
    cbn [em_calls CO_errorReport CO_errorReset];
    rewrite ?filter_app, ?filter_cons, ?filter_nil; cbn;
    rewrite ?app_nil_r; reflexivity.
Qed.

End VerifyErrors.

(** The error code has not moved since the last check: nothing happens. *)
Lemma C7_verifyErrors_unchanged_bitmask_witness :
  @CO_CANverifyErrors stm32_hal_can_error warned = warned
  ∧ em_calls (EM (@CO_CANverifyErrors stm32_hal_can_error warned)) = em_calls (EM warned).
Proof.
  apply (proj1 (@C7_verifyErrors_unchanged_bitmask stm32_hal_can_error warned)).
  reflexivity.
Defined.

(** C8, at the input where the code leaves it, with the error bits of the
    STM32 HAL. The check sees the warning bit and reports the warning fault.
    The error code then returns to [HAL_CAN_ERROR_NONE], the empty mask: the
    next check resets the bus-off fault and nothing else, because
    [HalCanErrorCode & HAL_CAN_ERROR_NONE] is zero, and the warning fault is
    still active. *)
Theorem C8_warning_stands_after_no_error :
  @CO_CANverifyErrors stm32_hal_can_error (environment 3 HAL_OK 1 booted) = warned
  ∧ CO_isError (EM warned) CO_EM_CAN_BUS_WARNING = true
  ∧ ErrorCode (hcan (environment 3 HAL_OK 0 warned))
    = @HAL_CAN_ERROR_NONE stm32_hal_can_error
  ∧ em_calls (EM (@CO_CANverifyErrors stm32_hal_can_error (environment 3 HAL_OK 0 warned)))
    = em_calls (EM warned) ++ [errorReset CO_EM_CAN_TX_BUS_OFF 0]
  ∧ CO_isError (EM (@CO_CANverifyErrors stm32_hal_can_error (environment 3 HAL_OK 0 warned)))
      CO_EM_CAN_BUS_WARNING = true.
Proof. repeat split. Qed.

(** ** CO_CANmodule_init *)

Lemma Prescaler_of_supported (CANbitRate : Z) :
  is_Some (Prescaler_of CANbitRate) ↔
  CANbitRate ∈ [10; 20; 50; 100; 125; 250; 500; 1000].
Proof.
  unfold Prescaler_of. rewrite !elem_of_cons, elem_of_nil.
  repeat match goal with
         | |- context [CANbitRate =? ?k] =>
             destruct (Z.eqb_spec CANbitRate k) as [->|?];
             [split; [intros _; repeat ((left; reflexivity) || right)
                     | intros _; eexists; reflexivity]|]
         end.
  split; [intros [p Hp]; discriminate Hp | intros Hin; exfalso; intuition lia].
Qed.

(** What CO_CANmodule_init does on the arguments it tests: the illegal
    argument error when the module or an array is [NULL]; with a handle, the
    illegal baud rate error outside the eight supported rates; success
    exactly when the rate is supported and [HAL_CAN_Init] succeeds, and then
    the entries are cleared and the counters and flags reset. *)
Lemma module_init_returns (CANmodule_p : option CO_CANmodule_t) (h : CAN_HandleTypeDef)
    (rxArray_p : option (list CO_CANrx_t)) (txArray_p : option (list CO_CANtx_t))
    (CANbitRate : Z) :
  ∃ err after,
    CO_CANmodule_init CANmodule_p (Some h) rxArray_p txArray_p CANbitRate
    = Returns (err, after)
    ∧ (err = CO_ERROR_ILLEGAL_ARGUMENT ↔
         CANmodule_p = None ∨ rxArray_p = None ∨ txArray_p = None)
    ∧ (err = CO_ERROR_ILLEGAL_BAUDRATE ↔
         is_Some CANmodule_p ∧ is_Some rxArray_p ∧ is_Some txArray_p
         ∧ CANbitRate ∉ [10; 20; 50; 100; 125; 250; 500; 1000])
    ∧ (err = CO_ERROR_NO ↔
         is_Some CANmodule_p ∧ is_Some rxArray_p ∧ is_Some txArray_p
         ∧ CANbitRate ∈ [10; 20; 50; 100; 125; 250; 500; 1000]
         ∧ Init_status h = HAL_OK)
    ∧ (err = CO_ERROR_NO →
         ∃ m h' rxA txA,
           after = Some (m, h') ∧ rxArray_p = Some rxA ∧ txArray_p = Some txA
           ∧ rxArray m = map init_rx rxA
           ∧ txArray m = map (set_bufferFull false) txA
           ∧ CANtxCount m = 0 ∧ errOld m = 0 ∧ em m = NULL
           ∧ CANnormal m = false ∧ useCANrxFilters m = false
           ∧ bufferInhibitFlag m = false ∧ firstCANtxMessage m = true).
Proof.
  pose proof (Prescaler_of_supported CANbitRate) as Hrate.
  unfold CO_CANmodule_init, HAL_CAN_Init.
  destruct CANmodule_p as [m0|], rxArray_p as [rxA|], txArray_p as [txA|];
    try (eexists _, _; split; [reflexivity|];
         repeat split; try discriminate; auto;
         intros (Hm & Hr & Ht & _);
         (by destruct Hm) || (by destruct Hr) || (by destruct Ht)).
  destruct (Prescaler_of CANbitRate) as [p|].
  - assert (Hin : CANbitRate ∈ [10; 20; 50; 100; 125; 250; 500; 1000])
      by (apply Hrate; eexists; reflexivity).
    cbn [Init_status set_Init].
    destruct (Init_status h) eqn:Hst; cbn [is_HAL_OK];
      eexists _, _; (split; [reflexivity|]);
      (split; [split; [discriminate | intros [?|[?|?]]; discriminate]|]);
      (split; [split; [discriminate | intros (_ & _ & _ & Hnot); done]|]);
      (split; [split; [try discriminate; intros _; repeat split; eauto
                      | try done; intros (_ & _ & _ & _ & ?); discriminate]|]);
      try discriminate.
    intros _. eexists _, _, _, _. repeat split.
  - assert (Hout : CANbitRate ∉ [10; 20; 50; 100; 125; 250; 500; 1000]).
    { intros Hin. apply Hrate in Hin as [p Hp]. discriminate Hp. }
    eexists _, _; (split; [reflexivity|]).
    split; [split; [discriminate | intros [?|[?|?]]; discriminate]|].
    split; [split; [intros _; repeat split; eauto | done]|].
    split; [split; [discriminate | intros (_ & _ & _ & Hin & _); done]|].
    discriminate.
Qed.

(** C9, at the input where the code leaves it. With a module and both arrays
    but a [NULL] handle, CO_CANmodule_init does not return the illegal
    argument error: it never tests [HALCanObject] and goes on to use it. *)
Theorem C9_init_null_handle_not_rejected (m : CO_CANmodule_t)
    (rxA : list CO_CANrx_t) (txA : list CO_CANtx_t) (CANbitRate : Z) :
  CO_CANmodule_init (Some m) None (Some rxA) (Some txA) CANbitRate = NullDereference
  ∧ ∀ after,
      CO_CANmodule_init (Some m) None (Some rxA) (Some txA) CANbitRate
      ≠ Returns (CO_ERROR_ILLEGAL_ARGUMENT, after).
Proof. split; [reflexivity | discriminate]. Qed.

(** ** CO_CANtxBufferInit *)

Lemma lor_bit_bound (a r : Z) : 0 ≤ a → 0 ≤ r → 0 ≤ Z.lor a r ≤ a + r.
Proof.
  intros Ha Hr. split; [apply Z.lor_nonneg; done|].
  pose proof (Z.add_lor_land a r) as Hsum.
  assert (0 ≤ Z.land a r) by (apply Z.land_nonneg; auto). lia.
Qed.

Lemma init_tx_header (ident_arg : Z) (rtr : bool) (noOfBytes : Z) (sync : bool)
    (b : CO_CANtx_t) :
  0 ≤ ident_arg < 2 ^ 16 → 0 ≤ noOfBytes < 2 ^ 8 →
  ident (init_tx ident_arg rtr noOfBytes sync b)
  = Z.lor (Z.shiftl ident_arg 2) (if rtr then 0x02 else 0)
  ∧ DLC (init_tx ident_arg rtr noOfBytes sync b) = noOfBytes.
Proof.
  intros Hid Hn. cbn [ident DLC init_tx]. unfold uint32_t, uint8_t.
  assert (Hsh : 0 ≤ Z.shiftl ident_arg 2 < 2 ^ 18)
    by (rewrite Z.shiftl_mul_pow2 by lia; lia).
  rewrite (Z.mod_small (Z.shiftl ident_arg 2)) by lia.
  assert (Hr : 0 ≤ (if rtr then 2 else 0) ≤ 2) by (destruct rtr; lia).
  pose proof (lor_bit_bound (Z.shiftl ident_arg 2) (if rtr then 2 else 0)
                ltac:(lia) ltac:(lia)) as Hlor.
  split; apply Z.mod_small; lia.
Qed.

(** C10. CO_CANtxBufferInit returns [NULL] and writes nothing when the module
    pointer is [NULL] or [index] is not below [txSize]. For a valid index it
    returns the slot at [index], in which [ident] holds [ident << 2] with bit
    1 set for [rtr], [DLC] holds [noOfBytes], [bufferFull] is false and
    [syncFlag] is as requested; the payload of that slot, every other slot
    and every other field of the module are as before. *)
Theorem C10_txBufferInit (index : nat) (ident_arg : Z) (rtr : bool) (noOfBytes : Z)
    (sync : bool) :
  CO_CANtxBufferInit None index ident_arg rtr noOfBytes sync = (None, None)
  ∧ (∀ m, (txSize m ≤ index)%nat →
       CO_CANtxBufferInit (Some m) index ident_arg rtr noOfBytes sync = (None, Some m))
  ∧ (∀ m, (index < txSize m)%nat →
       ∃ b m',
         txArray m !! index = Some b
         ∧ CO_CANtxBufferInit (Some m) index ident_arg rtr noOfBytes sync
           = (Some index, Some m')
         ∧ m' = set_txArray
                  (<[index := init_tx ident_arg rtr noOfBytes sync b]> (txArray m)) m
         ∧ txArray m' !! index = Some (init_tx ident_arg rtr noOfBytes sync b)
         ∧ (∀ j, j ≠ index → txArray m' !! j = txArray m !! j)
         ∧ bufferFull (init_tx ident_arg rtr noOfBytes sync b) = false
         ∧ syncFlag (init_tx ident_arg rtr noOfBytes sync b) = sync
         ∧ data (init_tx ident_arg rtr noOfBytes sync b) = data b
         ∧ (0 ≤ ident_arg < 2 ^ 16 → 0 ≤ noOfBytes < 2 ^ 8 →
              ident (init_tx ident_arg rtr noOfBytes sync b)
              = Z.lor (Z.shiftl ident_arg 2) (if rtr then 0x02 else 0)
              ∧ DLC (init_tx ident_arg rtr noOfBytes sync b) = noOfBytes)).
Proof.
  split; [reflexivity|]. split.
  - intros m Hge. unfold CO_CANtxBufferInit.
    destruct (index <? txSize m)%nat eqn:Hlt; [|reflexivity].
    apply Nat.ltb_lt in Hlt. lia.
  - intros m Hlt. unfold CO_CANtxBufferInit.
    destruct (lookup_lt_is_Some_2 (txArray m) index Hlt) as [b Hb].
    apply Nat.ltb_lt in Hlt as Hltb. rewrite Hltb, Hb.
    exists b. eexists. split; [reflexivity|]. split; [reflexivity|].
    split; [reflexivity|]. cbn [txArray set_txArray].
    split; [apply list_lookup_insert_eq; exact Hlt|].
    split; [intros j Hj; apply list_lookup_insert_ne; done|].
    split; [reflexivity|]. split; [reflexivity|]. split; [reflexivity|].
    apply init_tx_header.
Qed.

(** Slot 0 of the freshly initialised driver is configured and returned. *)
Lemma C10_txBufferInit_witness :
  (CO_CANtxBufferInit (Some (CANmodule booted)) 0 0x181 false 8 true).1 = Some 0%nat
  ∧ txArray <$> (CO_CANtxBufferInit (Some (CANmodule booted)) 0 0x181 false 8 true).2
    = Some [sync_tx].
Proof.
  assert (Hlt : (0 < txSize (CANmodule booted))%nat) by (unfold txSize; simpl; lia).
  destruct (proj2 (proj2 (C10_txBufferInit 0 0x181 false 8 true)) (CANmodule booted) Hlt)
    as (b & m' & Hb & Hret & Hm' & _).
  rewrite Hret. injection Hb as <-. rewrite Hm'. split; reflexivity.
Defined.

(** ** The scenarios of the specification *)

(** One entry for identifier 0x123 with mask 0x7FF, data frames only: the
    frame 0x123 reaches its handler, the frame 0x124 reaches none. *)
Example scenario_rx_exact_match :
  CO_CANinterrupt_Rx (set_rxArray [rx_123] zero_module) frame_123 [0x11; 0x22]
  = [callback_of rx_123 frame_123 [0x11; 0x22]]
  ∧ CO_CANinterrupt_Rx (set_rxArray [rx_123] zero_module)
      {| StdId := 0x124; RTR := 0; rx_DLC := 2 |} [0x11; 0x22]
    = [].
Proof. split; reflexivity. Qed.

(** [txSize = 1]: frame A is queued while no mailbox is free; a second send
    on slot 0 returns the overflow error; a drain with a free mailbox hands A
    to the hardware and clears [bufferFull]. The counter, at 2 after the
    second send, is at 1 after the drain with no slot full; the next drain
    finds no full slot and resets it. *)
Example scenario_tx_overflow_then_drain :
  CO_CANsend (one_slot zero_tx 0 0 HAL_OK) 0
  = Some (CO_ERROR_NO, one_slot queued_tx 1 0 HAL_OK)
  ∧ fst <$> CO_CANsend (one_slot queued_tx 1 0 HAL_OK) 0 = Some CO_ERROR_TX_OVERFLOW
  ∧ txArray (CANmodule (CO_CANpolling_Tx (one_slot queued_tx 2 3 HAL_OK))) = [zero_tx]
  ∧ AddTxMessage_calls (hcan (CO_CANpolling_Tx (one_slot queued_tx 2 3 HAL_OK)))
    = [(prepareTxHeader queued_tx, data queued_tx)]
  ∧ CANtxCount (CANmodule (CO_CANpolling_Tx (one_slot queued_tx 2 3 HAL_OK))) = 1
  ∧ CANtxCount
      (CANmodule (CO_CANpolling_Tx (CO_CANpolling_Tx (one_slot queued_tx 2 3 HAL_OK))))
    = 0.
Proof. repeat split. Qed.

(** The error code goes from 0 to bus-off (0x4 in the STM32 HAL) and stays
    there for three checks: one bus-off report. *)
Example scenario_bus_off_reported_once :
  em_calls
    (EM (Nat.iter 3 (@CO_CANverifyErrors stm32_hal_can_error)
           (environment 3 HAL_OK 0x4 booted)))
  = [errorReport CO_EM_CAN_TX_BUS_OFF CO_EMC_BUS_OFF_RECOVERED 0x4].
Proof. reflexivity. Qed.

(** ** CO_CANrxBufferInit *)

Lemma rxBufferInit_eq (d : Driver) (index : nat) (ident_arg mask : Z)
    (rtr : bool) (object pFunct : Z) :
  CO_CANrxBufferInit (Some d) index ident_arg mask rtr object pFunct
  = if bool_decide (object ≠ NULL) && bool_decide (pFunct ≠ NULL)
       && (index <? rxSize (CANmodule d))%nat
    then ((if useCANrxFilters (CANmodule d) then CO_ERROR_NO
           else if is_HAL_OK (ConfigFilter_status (hcan d)) then CO_ERROR_NO
                else CO_ERROR_HAL),
          Some {| CANmodule :=
                    set_rxArray
                      (<[index := rx_configured ident_arg mask rtr object pFunct]>
                         (rxArray (CANmodule d))) (CANmodule d);
                  hcan :=
                    if useCANrxFilters (CANmodule d) then hcan d
                    else (HAL_CAN_ConfigFilter (hcan d) accept_all).2;
                  EM := EM d |})
    else (CO_ERROR_ILLEGAL_ARGUMENT, Some d).
Proof.
  unfold CO_CANrxBufferInit, HAL_CAN_ConfigFilter.
  destruct (_ && _ && _); [|reflexivity].
  destruct (useCANrxFilters (CANmodule d)); [reflexivity|].
  cbn. destruct (is_HAL_OK _); reflexivity.
Qed.

Lemma rxBufferInit_valid (d : Driver) (index : nat) (object pFunct : Z) :
  bool_decide (object ≠ NULL) && bool_decide (pFunct ≠ NULL)
    && (index <? rxSize (CANmodule d))%nat = true ↔
  object ≠ NULL ∧ pFunct ≠ NULL ∧ (index < rxSize (CANmodule d))%nat.
Proof. rewrite !andb_true_iff, !bool_decide_eq_true, Nat.ltb_lt. tauto. Qed.

(** ** Identifier packing *)

Lemma bit1_above (q n : Z) : q = 0 ∨ q = 2 → 2 ≤ n → Z.testbit q n = false.
Proof.
  intros [->| ->] Hn; [apply Z.bits_0|].
  apply Z.bits_above_log2; [lia|]. change (Z.log2 2) with 1. lia.
Qed.

Lemma packed_bits (a b c r q : Z) :
  r = 0 ∨ r = 2 → q = 0 ∨ q = 2 →
  Z.land (Z.lxor (Z.lor (Z.shiftl a 2) r) (Z.lor (Z.shiftl b 2) q))
         (Z.lor (Z.shiftl c 2) 2)
  = Z.lor (Z.shiftl (Z.land (Z.lxor a b) c) 2) (Z.land (Z.lxor r q) 2).
Proof.
  intros Hr Hq. apply Z.bits_inj'. intros n Hn.
  rewrite !Z.land_spec, !Z.lxor_spec, !Z.lor_spec, !Z.land_spec, !Z.lxor_spec.
  destruct (Z.lt_ge_cases n 2) as [Hlow|Hhigh].
  - rewrite !Z.shiftl_spec_low by lia.
    assert (Hcase : n = 0 ∨ n = 1) by lia.
    destruct Hcase as [-> | ->], Hr as [-> | ->], Hq as [-> | ->]; reflexivity.
  - rewrite !Z.shiftl_spec by lia.
    rewrite (bit1_above r n Hr Hhigh), (bit1_above q n Hq Hhigh).
    rewrite (bit1_above 2 n (or_intror eq_refl) Hhigh).
    rewrite Z.land_spec, Z.lxor_spec.
    destruct (Z.testbit a (n - 2)), (Z.testbit b (n - 2)), (Z.testbit c (n - 2));
      reflexivity.
Qed.

Lemma packed_compare (a b c r q : Z) :
  r = 0 ∨ r = 2 → q = 0 ∨ q = 2 →
  Z.land (Z.lxor (Z.lor (Z.shiftl a 2) r) (Z.lor (Z.shiftl b 2) q))
         (Z.lor (Z.shiftl c 2) 2) = 0
  ↔ Z.land (Z.lxor a b) c = 0 ∧ r = q.
Proof.
  intros Hr Hq. rewrite (packed_bits a b c r q Hr Hq).
  rewrite Z.lor_eq_0_iff, Z.shiftl_eq_0_iff by lia.
  generalize (Z.land (Z.lxor a b) c). intros X.
  destruct Hr as [-> | ->], Hq as [-> | ->]; vm_compute; intuition congruence.
Qed.

Lemma land_7FF_range (x : Z) : 0 ≤ Z.land x 0x07FF < 2 ^ 11.
Proof.
  change 0x07FF with (Z.ones 11). rewrite Z.land_ones by lia.
  apply Z.mod_pos_bound. lia.
Qed.

Lemma rx_configured_packed (ident_arg mask : Z) (rtr : bool) (object pFunct : Z) :
  rx_ident (rx_configured ident_arg mask rtr object pFunct)
  = Z.lor (Z.shiftl (Z.land ident_arg 0x07FF) 2) (if rtr then 2 else 0)
  ∧ rx_mask (rx_configured ident_arg mask rtr object pFunct)
    = Z.lor (Z.shiftl (Z.land mask 0x07FF) 2) 2.
Proof.
  cbn [rx_ident rx_mask rx_configured].
  pose proof (land_7FF_range ident_arg) as Hi.
  pose proof (land_7FF_range mask) as Hm.
  assert (Hsh : ∀ x, 0 ≤ x < 2 ^ 11 → 0 ≤ Z.shiftl x 2 < 2 ^ 13)
    by (intros x Hx; rewrite Z.shiftl_mul_pow2 by lia; lia).
  pose proof (Hsh _ Hi) as Hi'. pose proof (Hsh _ Hm) as Hm'.
  rewrite !(uint16_small (Z.shiftl _ 2)) by lia.
  pose proof (lor_bit_bound (Z.shiftl (Z.land ident_arg 2047) 2) (if rtr then 2 else 0)
                ltac:(lia) ltac:(destruct rtr; lia)) as Hl1.
  pose proof (lor_bit_bound (Z.shiftl (Z.land mask 2047) 2) 2 ltac:(lia) ltac:(lia))
    as Hl2.
  assert ((if rtr then 2 else 0) ≤ 2) by (destruct rtr; lia).
  split; apply uint16_small; lia.
Qed.

(** X1. CO_CANrxBufferInit returns the illegal argument error exactly when
    the module, the object or the handler is [NULL] or the index is not below
    [rxSize], and then writes nothing and programs no filter. Otherwise it
    overwrites the entry at [index] with the object, the handler and the
    packed identifier and mask, and leaves every other entry, the transmit
    side, the frames handed to the peripheral and the emergency object alone;
    with hardware filters off it passes one filter to [HAL_CAN_ConfigFilter],
    the one for bank 0 with identifier 0 and mask 0 that lets every frame
    into FIFO 0, on every such call; with hardware filters on it leaves the
    peripheral alone. It returns the HAL error exactly when hardware filters
    are off and [HAL_CAN_ConfigFilter] fails, and the entry is written in
    that case too. *)
Theorem rxBufferInit_result (d : Driver) (index : nat) (ident_arg mask : Z)
    (rtr : bool) (object pFunct : Z) :
  CO_CANrxBufferInit None index ident_arg mask rtr object pFunct
  = (CO_ERROR_ILLEGAL_ARGUMENT, None)
  ∧ ((CO_CANrxBufferInit (Some d) index ident_arg mask rtr object pFunct).1
       = CO_ERROR_ILLEGAL_ARGUMENT ↔
     object = NULL ∨ pFunct = NULL ∨ (rxSize (CANmodule d) ≤ index)%nat)
  ∧ ((CO_CANrxBufferInit (Some d) index ident_arg mask rtr object pFunct).1
       = CO_ERROR_ILLEGAL_ARGUMENT →
     (CO_CANrxBufferInit (Some d) index ident_arg mask rtr object pFunct).2 = Some d)
  ∧ ((CO_CANrxBufferInit (Some d) index ident_arg mask rtr object pFunct).1
       = CO_ERROR_HAL ↔
     object ≠ NULL ∧ pFunct ≠ NULL ∧ (index < rxSize (CANmodule d))%nat
     ∧ useCANrxFilters (CANmodule d) = false
     ∧ ConfigFilter_status (hcan d) ≠ HAL_OK)
  ∧ ((CO_CANrxBufferInit (Some d) index ident_arg mask rtr object pFunct).1
       ≠ CO_ERROR_ILLEGAL_ARGUMENT →
     ∃ d',
       (CO_CANrxBufferInit (Some d) index ident_arg mask rtr object pFunct).2 = Some d'
       ∧ rxArray (CANmodule d')
         = <[index := rx_configured ident_arg mask rtr object pFunct]>
             (rxArray (CANmodule d))
       ∧ rxArray (CANmodule d') !! index
         = Some (rx_configured ident_arg mask rtr object pFunct)
       ∧ (∃ e, rxArray (CANmodule d') !! index = Some e
             ∧ rx_object e = object ∧ rx_pFunct e = pFunct
             ∧ rx_ident e
               = Z.lor (Z.shiftl (Z.land ident_arg 0x7FF) 2) (if rtr then 2 else 0)
             ∧ rx_mask e = Z.lor (Z.shiftl (Z.land mask 0x7FF) 2) 2)
       ∧ (∀ j, j ≠ index → rxArray (CANmodule d') !! j = rxArray (CANmodule d) !! j)
       ∧ txArray (CANmodule d') = txArray (CANmodule d)
       ∧ CANtxCount (CANmodule d') = CANtxCount (CANmodule d)
       ∧ EM d' = EM d
       ∧ AddTxMessage_calls (hcan d') = AddTxMessage_calls (hcan d)
       ∧ (useCANrxFilters (CANmodule d) = true → hcan d' = hcan d)
       ∧ (useCANrxFilters (CANmodule d) = false →
          ∃ f,
            ConfigFilter_calls (hcan d') = ConfigFilter_calls (hcan d) ++ [f]
            ∧ FilterBank f = 0
            ∧ FilterMode f = CAN_FILTERMODE_IDMASK
            ∧ FilterScale f = CAN_FILTERSCALE_32BIT
            ∧ FilterIdHigh f = 0 ∧ FilterIdLow f = 0
            ∧ FilterMaskIdHigh f = 0 ∧ FilterMaskIdLow f = 0
            ∧ FilterFIFOAssignment f = CAN_RX_FIFO0
            ∧ FilterActivation f = ENABLE
            ∧ SlaveStartFilterBank f = 14)).
Proof.
  split; [reflexivity|].
  rewrite rxBufferInit_eq.
  pose proof (rxBufferInit_valid d index object pFunct) as Hvalid.
  destruct (_ && _ && _) eqn:Hv.
  - destruct (proj1 Hvalid eq_refl) as (Ho & Hp & Hi). clear Hvalid. cbn [fst snd].
    assert (Herr :
      (if useCANrxFilters (CANmodule d) then CO_ERROR_NO
       else if is_HAL_OK (ConfigFilter_status (hcan d)) then CO_ERROR_NO
            else CO_ERROR_HAL) ≠ CO_ERROR_ILLEGAL_ARGUMENT).
    { destruct (useCANrxFilters _); [|destruct (is_HAL_OK _)]; discriminate. }
    split; [split; [intros He; done | intros [?|[?|?]]; first [done | lia]]|].
    split; [intros He; done|].
    split.
    + destruct (useCANrxFilters (CANmodule d)).
      * split; [discriminate | intros (_ & _ & _ & ? & _); discriminate].
      * destruct (ConfigFilter_status (hcan d)); cbn [is_HAL_OK];
          (split; [try discriminate; intros _; repeat split; done
                  | try reflexivity; intros (_ & _ & _ & _ & ?); done]).
    + intros _. eexists. split; [reflexivity|].
      cbn [CANmodule hcan EM rxArray txArray CANtxCount set_rxArray].
      split; [reflexivity|]. split; [by apply list_lookup_insert_eq|].
      split.
      { eexists. split; [by apply list_lookup_insert_eq|].
        split; [reflexivity|]. split; [reflexivity|].
        exact (rx_configured_packed ident_arg mask rtr object pFunct). }
      split; [intros j Hj; by apply list_lookup_insert_ne|].
      split; [reflexivity|]. split; [reflexivity|]. split; [reflexivity|].
      destruct (useCANrxFilters (CANmodule d)).
      * split; [reflexivity|]. split; [reflexivity | discriminate].
      * cbn. split; [reflexivity|].
        split; [discriminate|]. intros _. exists accept_all.
        split; [reflexivity|]. cbn. tauto.
  - assert (Hinvalid :
      object = NULL ∨ pFunct = NULL ∨ (rxSize (CANmodule d) ≤ index)%nat).
    { destruct (decide (object = NULL)) as [|Ho]; [by left|].
      destruct (decide (pFunct = NULL)) as [|Hp]; [by right; left|].
      right; right. destruct (decide (index < rxSize (CANmodule d))%nat); [|lia].
      assert (false = true) by (apply Hvalid; done).
      discriminate. }
    cbn [fst snd]. split; [split; [intros _; exact Hinvalid | reflexivity]|].
    split; [reflexivity|]. split; [|intros Hne; done].
    split; [discriminate|]. intros (Ho & Hp & Hi & _).
    destruct Hinvalid as [?|[?|?]]; first [done | lia].
Qed.

Lemma rx_configured_matches (ident_arg mask : Z) (rtr : bool) (object pFunct : Z)
    (header : CAN_RxHeaderTypeDef) :
  0 ≤ StdId header < 2 ^ 11 →
  RTR header = 0 ∨ RTR header = 2 →
  rx_matches (rx_msg header) (rx_configured ident_arg mask rtr object pFunct) = true
  ↔ Z.land (Z.lxor (StdId header) (Z.land ident_arg 0x07FF)) (Z.land mask 0x07FF) = 0
    ∧ (RTR header = 2 ↔ rtr = true).
Proof.
  intros Hid Hrtr. unfold rx_matches. rewrite Z.eqb_eq.
  destruct (rx_configured_packed ident_arg mask rtr object pFunct) as [-> ->].
  rewrite rx_msg_packed by (destruct Hrtr as [Hr|Hr]; rewrite ?Hr; lia).
  rewrite packed_compare by (first [exact Hrtr | destruct rtr; auto]).
  destruct rtr, Hrtr as [Hr|Hr]; rewrite Hr; intuition (discriminate || lia).
Qed.

(** X2. What an entry written by CO_CANrxBufferInit accepts. A frame with an
    11-bit identifier and the RTR field 0 or 2 matches the entry exactly when
    the identifier agrees with the configured one on every bit of the mask
    (both cut to 11 bits) and the frame is a remote frame exactly when the
    entry was configured with [rtr]: the RTR bit is compared whatever the
    mask. With the full mask 0x7FF the identifier must be the configured
    one. *)
Theorem rx_configured_accepts (ident_arg mask : Z) (rtr : bool) (object pFunct : Z)
    (header : CAN_RxHeaderTypeDef) :
  0 ≤ StdId header < 2 ^ 11 →
  RTR header = 0 ∨ RTR header = 2 →
  (rx_matches (rx_msg header) (rx_configured ident_arg mask rtr object pFunct) = true
   ↔ Z.land (Z.lxor (StdId header) (Z.land ident_arg 0x07FF)) (Z.land mask 0x07FF) = 0
     ∧ (RTR header = 2 ↔ rtr = true))
  ∧ (Z.land mask 0x07FF = 0x07FF →
     rx_matches (rx_msg header) (rx_configured ident_arg mask rtr object pFunct) = true
     ↔ StdId header = Z.land ident_arg 0x07FF ∧ (RTR header = 2 ↔ rtr = true))
  ∧ (Z.land mask 0x07FF = 0 →
     rx_matches (rx_msg header) (rx_configured ident_arg mask rtr object pFunct) = true
     ↔ (RTR header = 2 ↔ rtr = true)).
Proof.
  intros Hid Hrtr.
  pose proof (rx_configured_matches ident_arg mask rtr object pFunct header Hid Hrtr)
    as Hm.
  split; [exact Hm|]. split.
  - intros Hfull. rewrite Hm, Hfull.
    pose proof (land_7FF_range ident_arg) as Hi.
    assert (Hx : Z.land (Z.lxor (StdId header) (Z.land ident_arg 2047)) 2047
                 = Z.lxor (StdId header) (Z.land ident_arg 2047)).
    { change 2047 with (Z.ones 11) at 2. rewrite Z.land_ones by lia.
      apply Z.mod_small. split; [apply Z.lxor_nonneg; lia|].
      destruct (Z.eq_dec (Z.lxor (StdId header) (Z.land ident_arg 2047)) 0) as [->|Hnz];
        [lia|].
      apply Z.log2_lt_pow2.
      { pose proof (proj2 (Z.lxor_nonneg (StdId header) (Z.land ident_arg 2047))
                      ltac:(lia)). lia. }
      eapply Z.le_lt_trans; [apply Z.log2_lxor; lia|].
      apply Z.max_lub_lt.
      - destruct (Z.eq_dec (StdId header) 0) as [->|?]; [cbn; lia|].
        apply Z.log2_lt_pow2; lia.
      - destruct (Z.eq_dec (Z.land ident_arg 2047) 0) as [->|?]; [cbn; lia|].
        apply Z.log2_lt_pow2; lia. }
    rewrite Hx, Z.lxor_eq_0_iff. tauto.
  - intros Hnone. rewrite Hm, Hnone, Z.land_0_r. tauto.
Qed.

(** A data frame 0x123 against an entry for 0x123 with the full mask. *)
Lemma rx_configured_accepts_witness :
  rx_matches (rx_msg frame_123) (rx_configured 0x123 0x7FF false 0x20000400 0x08000101)
  = true.
Proof.
  assert (Hid : 0 ≤ StdId frame_123 < 2 ^ 11) by (simpl; lia).
  assert (Hrtr : RTR frame_123 = 0 ∨ RTR frame_123 = 2) by (left; reflexivity).
  apply (proj1 (rx_configured_accepts 0x123 0x7FF false 0x20000400 0x08000101
                  frame_123 Hid Hrtr)).
  split; [reflexivity|]. split; discriminate.
Defined.

(** ** Configuration followed by dispatch *)

Lemma rx_search_elem (msg : Z) (l : list CO_CANrx_t) (k i : nat) (e : CO_CANrx_t) :
  rx_search msg l k = Some (i, e) → e ∈ l.
Proof.
  revert k. induction l as [|b l IH]; intros k Hs; simpl in Hs; [discriminate|].
  destruct (rx_matches msg b).
  - injection Hs as _ <-. apply list_elem_of_here.
  - apply list_elem_of_further. eapply IH. exact Hs.
Qed.

Lemma interrupt_Rx_no_handlers (m : CO_CANmodule_t) (header : CAN_RxHeaderTypeDef)
    (payload : list Z) :
  (∀ e, e ∈ rxArray m → rx_pFunct e = NULL) →
  CO_CANinterrupt_Rx m header payload = [].
Proof.
  intros Hnull. unfold CO_CANinterrupt_Rx.
  destruct (rx_search _ _ _) as [[i e]|] eqn:Hs; [|reflexivity].
  apply rx_search_elem in Hs. rewrite (Hnull e Hs).
  rewrite bool_decide_false; [reflexivity | intros Hne; by apply Hne].
Qed.

(** X3. Configuration and dispatch compose. Once CO_CANrxBufferInit has
    written entry [index] (whatever the filter configuration of the hardware
    answered), a frame with an 11-bit identifier that agrees with the
    configured identifier under the mask, with the configured RTR kind, and
    that no entry below [index] matches, makes CO_CANinterrupt_Rx call the
    configured handler once, with the configured object and a message whose
    payload is the frame's and whose identifier, read back by
    CO_CANrxMsg_readIdent, is the frame's. *)
Theorem rxBufferInit_then_interrupt_Rx (d d' : Driver) (index : nat)
    (ident_arg mask : Z) (rtr : bool) (object pFunct : Z) (err : CO_ReturnError_t)
    (header : CAN_RxHeaderTypeDef) (payload : list Z) :
  CO_CANrxBufferInit (Some d) index ident_arg mask rtr object pFunct = (err, Some d') →
  err ≠ CO_ERROR_ILLEGAL_ARGUMENT →
  0 ≤ StdId header < 2 ^ 11 →
  RTR header = 0 ∨ RTR header = 2 →
  (∀ j e, (j < index)%nat → rxArray (CANmodule d) !! j = Some e →
          rx_matches (rx_msg header) e = false) →
  Z.land (Z.lxor (StdId header) (Z.land ident_arg 0x07FF)) (Z.land mask 0x07FF) = 0 →
  (RTR header = 2 ↔ rtr = true) →
  ∃ call,
    CO_CANinterrupt_Rx (CANmodule d') header payload = [call]
    ∧ called_pFunct call = pFunct
    ∧ passed_object call = object
    ∧ msg_data (passed_message call) = payload
    ∧ CO_CANrxMsg_readIdent (passed_message call) = StdId header.
Proof.
  intros Hinit Herr Hid Hrtr Hbelow Hmatch Hkind.
  rewrite rxBufferInit_eq in Hinit.
  destruct (_ && _ && _) eqn:Hv; [|injection Hinit as <- _; done].
  apply rxBufferInit_valid in Hv as (Ho & Hp & Hi).
  injection Hinit as _ <-.
  assert (Hfirst : first_at (rx_matches (rx_msg header))
            (<[index := rx_configured ident_arg mask rtr object pFunct]>
               (rxArray (CANmodule d)))
            index (rx_configured ident_arg mask rtr object pFunct)).
  { split; [by apply list_lookup_insert_eq|]. split.
    - apply rx_configured_matches; done.
    - intros j y Hj Hy. rewrite list_lookup_insert_ne in Hy by lia.
      eapply Hbelow; eassumption. }
  unfold CO_CANinterrupt_Rx. cbn [CANmodule with_module rxArray set_rxArray].
  rewrite (rx_search_first _ _ _ _ Hfirst 0%nat).
  cbn [rx_pFunct rx_configured]. rewrite bool_decide_true by exact Hp.
  eexists. split; [reflexivity|]. cbn.
  repeat split. unfold CO_CANrxMsg_readIdent. cbn. apply uint16_small. lia.
Qed.

(** Entry 1 is configured for 0x123 behind an entry for 0x200. *)
Lemma rxBufferInit_then_interrupt_Rx_witness :
  ∃ call,
    CO_CANinterrupt_Rx
      (set_rxArray [rx_configured 0x200 0x7FF false 0x20000800 0x08000201; rx_123]
         (CANmodule booted))
      frame_123 [0x11; 0x22] = [call]
    ∧ called_pFunct call = 0x08000101
    ∧ passed_object call = 0x20000400
    ∧ msg_data (passed_message call) = [0x11; 0x22]
    ∧ CO_CANrxMsg_readIdent (passed_message call) = StdId frame_123.
Proof.
  apply (rxBufferInit_then_interrupt_Rx
           (with_module
              (set_rxArray
                 [rx_configured 0x200 0x7FF false 0x20000800 0x08000201; zero_rx]
                 (CANmodule booted)) booted)
           (with_hcan (HAL_CAN_ConfigFilter (hcan booted) accept_all).2
              (with_module
                 (set_rxArray
                    [rx_configured 0x200 0x7FF false 0x20000800 0x08000201; rx_123]
                    (CANmodule booted)) booted))
           1 0x123 0x7FF false 0x20000400 0x08000101 CO_ERROR_NO frame_123
           [0x11; 0x22]).
  - reflexivity.
  - discriminate.
  - simpl. lia.
  - left. reflexivity.
  - intros [|j] e Hj He; [|lia]. injection He as <-. reflexivity.
  - reflexivity.
  - split; discriminate.
Defined.

(** X4. Whenever CO_CANmodule_init has written the module (it returned
    success, the HAL error or the illegal baud rate error), no frame reaches
    a handler until an entry is configured again: every [pFunct] is [NULL]. *)
Theorem module_init_then_no_dispatch (CANmodule_p : option CO_CANmodule_t)
    (HALCanObject : option CAN_HandleTypeDef)
    (rxArray_p : option (list CO_CANrx_t)) (txArray_p : option (list CO_CANtx_t))
    (CANbitRate : Z) (err : CO_ReturnError_t) (m : CO_CANmodule_t)
    (h : CAN_HandleTypeDef) :
  CO_CANmodule_init CANmodule_p HALCanObject rxArray_p txArray_p CANbitRate
  = Returns (err, Some (m, h)) →
  ∀ header payload, CO_CANinterrupt_Rx m header payload = [].
Proof.
  intros Hinit header payload. apply interrupt_Rx_no_handlers.
  unfold CO_CANmodule_init in Hinit.
  destruct CANmodule_p as [m0|], rxArray_p as [rxA|], txArray_p as [txA|];
    try discriminate Hinit.
  destruct HALCanObject as [h0|]; [|discriminate Hinit].
  assert (Hrx : rxArray m = map init_rx rxA).
  { destruct (Prescaler_of CANbitRate); [destruct (is_HAL_OK _)|];
      injection Hinit as _ <- _; reflexivity. }
  rewrite Hrx. intros e He. apply list_elem_of_fmap in He as (x & -> & _). reflexivity.
Qed.

(** Initialisation over a configured entry, at an unsupported rate. *)
Lemma module_init_then_no_dispatch_witness :
  CO_CANinterrupt_Rx
    {| rxArray := [init_rx rx_123]; txArray := []; CANnormal := false;
       useCANrxFilters := false; bufferInhibitFlag := false;
       firstCANtxMessage := true; CANtxCount := 0; errOld := 0; em := NULL |}
    frame_123 [0x11; 0x22] = [].
Proof.
  apply (module_init_then_no_dispatch (Some zero_module) (Some zero_hcan)
           (Some [rx_123]) (Some []) 33 CO_ERROR_ILLEGAL_BAUDRATE _
           (set_Init (init_Init 0) zero_hcan)).
  reflexivity.
Defined.

(** ** Transmit headers *)

Lemma shiftl2_land_2 (a : Z) : Z.land (Z.shiftl a 2) 2 = 0.
Proof.
  apply Z.bits_inj'. intros n Hn. rewrite Z.land_spec, Z.bits_0.
  destruct (Z.lt_ge_cases n 2) as [Hlow|Hhigh].
  - rewrite Z.shiftl_spec_low by lia. reflexivity.
  - rewrite (bit1_above 2 n (or_intror eq_refl) Hhigh). apply andb_false_r.
Qed.

Lemma prepareTxHeader_init_tx (ident_arg : Z) (rtr : bool) (noOfBytes : Z)
    (sync : bool) (b : CO_CANtx_t) :
  0 ≤ ident_arg < 2 ^ 16 → 0 ≤ noOfBytes < 2 ^ 8 →
  prepareTxHeader (init_tx ident_arg rtr noOfBytes sync b)
  = {| tx_StdId := ident_arg; tx_ExtId := 0;
       tx_RTR := if rtr then 2 else 0; tx_DLC := noOfBytes |}.
Proof.
  intros Hid Hn. unfold prepareTxHeader.
  destruct (init_tx_header ident_arg rtr noOfBytes sync b Hid Hn) as [-> ->].
  f_equal.
  - rewrite Z.shiftr_lor, Z.shiftr_shiftl_l by lia. cbn [Z.sub Z.opp Z.add].
    rewrite Z.shiftl_0_r. destruct rtr; cbn; apply Z.lor_0_r.
  - rewrite Z.land_lor_distr_l, shiftl2_land_2. destruct rtr; reflexivity.
Qed.

(** X5. Configuration of a transmit slot and the header built from it round
    trip: after CO_CANtxBufferInit returned a slot, the header that
    [prepareTxHeader] builds from that slot carries the identifier, the RTR
    kind and the length that were passed, as a standard frame ([ExtId] 0),
    and the slot is not queued. The identifier is taken as given, up to 16
    bits: unlike the receive side, nothing cuts it to 11 bits. *)
Theorem txBufferInit_header_round_trip (m m' : CO_CANmodule_t) (index slot : nat)
    (ident_arg : Z) (rtr : bool) (noOfBytes : Z) (sync : bool) :
  CO_CANtxBufferInit (Some m) index ident_arg rtr noOfBytes sync = (Some slot, Some m') →
  0 ≤ ident_arg < 2 ^ 16 →
  0 ≤ noOfBytes < 2 ^ 8 →
  slot = index
  ∧ ∃ b',
      txArray m' !! slot = Some b'
      ∧ prepareTxHeader b'
        = {| tx_StdId := ident_arg; tx_ExtId := 0;
             tx_RTR := if rtr then 2 else 0; tx_DLC := noOfBytes |}
      ∧ bufferFull b' = false
      ∧ syncFlag b' = sync.
Proof.
  intros Hinit Hid Hn. unfold CO_CANtxBufferInit in Hinit.
  destruct (index <? txSize m)%nat eqn:Hlt; [|discriminate Hinit].
  apply Nat.ltb_lt in Hlt.
  destruct (txArray m !! index) as [b|] eqn:Hb; [|discriminate Hinit].
  injection Hinit as <- <-. split; [reflexivity|].
  exists (init_tx ident_arg rtr noOfBytes sync b). cbn [txArray set_txArray].
  split; [by apply list_lookup_insert_eq|].
  split; [by apply prepareTxHeader_init_tx|]. split; reflexivity.
Qed.

(** Slot 0 configured for the identifier 0x7FFF: the header carries it. *)
Lemma txBufferInit_header_round_trip_witness :
  ∃ b',
    txArray (set_txArray [init_tx 0x7FFF true 8 false zero_tx] (CANmodule booted))
      !! 0%nat = Some b'
    ∧ prepareTxHeader b'
      = {| tx_StdId := 0x7FFF; tx_ExtId := 0; tx_RTR := 2; tx_DLC := 8 |}
    ∧ bufferFull b' = false
    ∧ syncFlag b' = false.
Proof.
  apply (txBufferInit_header_round_trip (CANmodule booted)
           (set_txArray [init_tx 0x7FFF true 8 false zero_tx] (CANmodule booted))
           0 0 0x7FFF true 8 false).
  - reflexivity.
  - lia.
  - lia.
Defined.

(** X6. A frame sent from a configured slot, received back with the header
    it was sent with, is accepted by a configured receive entry exactly when
    the two identifiers agree under the mask and both sides were configured
    with the same RTR kind. *)
Theorem tx_frame_meets_rx_entry (ident_tx : Z) (rtr_tx : bool) (noOfBytes : Z)
    (sync : bool) (b : CO_CANtx_t) (ident_rx mask : Z) (rtr_rx : bool)
    (object pFunct : Z) :
  0 ≤ ident_tx < 2 ^ 11 →
  0 ≤ noOfBytes < 2 ^ 8 →
  rx_matches
    (rx_msg
       {| StdId := tx_StdId (prepareTxHeader (init_tx ident_tx rtr_tx noOfBytes sync b));
          RTR := tx_RTR (prepareTxHeader (init_tx ident_tx rtr_tx noOfBytes sync b));
          rx_DLC := tx_DLC (prepareTxHeader (init_tx ident_tx rtr_tx noOfBytes sync b)) |})
    (rx_configured ident_rx mask rtr_rx object pFunct) = true
  ↔ Z.land (Z.lxor ident_tx (Z.land ident_rx 0x07FF)) (Z.land mask 0x07FF) = 0
    ∧ rtr_tx = rtr_rx.
Proof.
  intros Hid Hn. rewrite prepareTxHeader_init_tx by lia. cbn [tx_StdId tx_RTR tx_DLC].
  rewrite rx_configured_matches; cbn [StdId RTR];
    [|lia|destruct rtr_tx; auto].
  destruct rtr_tx, rtr_rx; intuition (discriminate || lia).
Qed.

(** A data frame 0x123 sent from a slot meets the entry for 0x123. *)
Lemma tx_frame_meets_rx_entry_witness :
  rx_matches
    (rx_msg
       {| StdId := tx_StdId (prepareTxHeader (init_tx 0x123 false 2 false zero_tx));
          RTR := tx_RTR (prepareTxHeader (init_tx 0x123 false 2 false zero_tx));
          rx_DLC := tx_DLC (prepareTxHeader (init_tx 0x123 false 2 false zero_tx)) |})
    (rx_configured 0x123 0x7FF false 0x20000400 0x08000101) = true.
Proof.
  apply (proj2 (tx_frame_meets_rx_entry 0x123 false 2 false zero_tx 0x123 0x7FF false
                  0x20000400 0x08000101 ltac:(lia) ltac:(lia))).
  split; reflexivity.
Defined.

(** ** Hand-off to the hardware *)

(** X7. Where a frame given to CO_CANsend goes. When [CANtxCount] is 0 and a
    mailbox is free, exactly one frame is passed to [HAL_CAN_AddTxMessage]:
    the slot's data under a header with the identifier [ident >> 2], the RTR
    field [ident & 2], the slot's [DLC] and no extended identifier; the
    inhibit flag takes the slot's [syncFlag], and the array and the counter
    stay as they are: if the hardware refuses the frame it is not queued
    either, and the HAL error is returned. In every other state no frame is
    passed to the hardware, the slot ends full with the frame it held, no
    other slot changes, and the 16-bit counter is incremented. *)
Theorem send_hand_off (d : Driver) (buffer : nat) (b : CO_CANtx_t) :
  txArray (CANmodule d) !! buffer = Some b →
  ∃ err d',
    CO_CANsend d buffer = Some (err, d')
    ∧ (CANtxCount (CANmodule d) = 0 ∧ 0 < TxMailboxesFreeLevel (hcan d) →
         (∃ h,
            AddTxMessage_calls (hcan d') = AddTxMessage_calls (hcan d) ++ [(h, data b)]
            ∧ tx_StdId h = Z.shiftr (ident b) 2
            ∧ tx_ExtId h = 0
            ∧ tx_RTR h = Z.land (ident b) 2
            ∧ tx_DLC h = DLC b)
         ∧ bufferInhibitFlag (CANmodule d') = syncFlag b
         ∧ txArray (CANmodule d') = txArray (CANmodule d)
         ∧ CANtxCount (CANmodule d') = CANtxCount (CANmodule d)
         ∧ (AddTxMessage_status (hcan d) ≠ HAL_OK → err = CO_ERROR_HAL)
         ∧ (AddTxMessage_status (hcan d) = HAL_OK →
              err = if bufferFull b then CO_ERROR_TX_OVERFLOW else CO_ERROR_NO))
    ∧ (¬ (CANtxCount (CANmodule d) = 0 ∧ 0 < TxMailboxesFreeLevel (hcan d)) →
         hcan d' = hcan d
         ∧ bufferInhibitFlag (CANmodule d') = bufferInhibitFlag (CANmodule d)
         ∧ (∃ b', txArray (CANmodule d') !! buffer = Some b'
                  ∧ bufferFull b' = true ∧ same_frame b b')
         ∧ length (txArray (CANmodule d')) = length (txArray (CANmodule d))
         ∧ (∀ j, j ≠ buffer →
              txArray (CANmodule d') !! j = txArray (CANmodule d) !! j)
         ∧ CANtxCount (CANmodule d') = (CANtxCount (CANmodule d) + 1) mod 2 ^ 16
         ∧ err = if bufferFull b then CO_ERROR_TX_OVERFLOW else CO_ERROR_NO)
    ∧ firstCANtxMessage (CANmodule d') = firstCANtxMessage (CANmodule d)
    ∧ rxArray (CANmodule d') = rxArray (CANmodule d).
Proof.
  intros Hb. unfold CO_CANsend, HAL_CAN_AddTxMessage, HAL_CAN_GetTxMailboxesFreeLevel.
  rewrite Hb.
  destruct ((CANtxCount (CANmodule d) =? 0) && (0 <? TxMailboxesFreeLevel (hcan d)))
    eqn:Hdirect.
  - apply andb_true_iff in Hdirect as [Hc%Z.eqb_eq Hf%Z.ltb_lt].
    destruct (bufferFull b); eexists _, _; (split; [reflexivity|]); cbn;
      (split; [|split; [intros Hn; exfalso; apply Hn; done | done]]);
      intros _; (split; [eexists; split; [reflexivity|]; cbn; done|]);
      (split; [reflexivity|]); (split; [reflexivity|]); (split; [reflexivity|]);
      destruct (AddTxMessage_status (hcan d)); cbn; split; intros Hst; done.
  - assert (Hnot : ¬ (CANtxCount (CANmodule d) = 0 ∧ 0 < TxMailboxesFreeLevel (hcan d))).
    { intros [Hc Hf]. apply Z.eqb_eq in Hc. apply Z.ltb_lt in Hf.
      rewrite Hc, Hf in Hdirect. discriminate. }
    pose proof (lookup_lt_Some _ _ _ Hb) as Hlen.
    destruct (bufferFull b); eexists _, _; (split; [reflexivity|]); cbn;
      (split; [intros Hy; exfalso; apply Hnot; exact Hy|]);
      (split; [|done]); intros _;
      (split; [reflexivity|]); (split; [reflexivity|]);
      (split; [eexists; split; [by apply list_lookup_insert_eq|]; done|]);
      (split; [apply length_insert|]);
      (split; [intros j Hj; apply list_lookup_insert_ne; congruence|]);
      done.
Qed.

(** A free mailbox that refuses the frame: the HAL error, nothing queued. *)
Lemma send_hand_off_witness :
  ∃ err d',
    CO_CANsend (one_slot zero_tx 0 1 HAL_ERROR) 0 = Some (err, d')
    ∧ err = CO_ERROR_HAL
    ∧ txArray (CANmodule d') = [zero_tx].
Proof.
  destruct (send_hand_off (one_slot zero_tx 0 1 HAL_ERROR) 0 zero_tx eq_refl)
    as (err & d' & Hsend & Hdirect & _).
  exists err, d'. split; [exact Hsend|].
  destruct Hdirect as (_ & _ & Htx & _ & Herr & _); [split; [reflexivity | simpl; lia]|].
  split; [apply Herr; discriminate | exact Htx].
Defined.

(** ** Draining the queue *)

Lemma tx_search_release (l : list CO_CANtx_t) (k : nat) :
  match tx_search l k with
  | Some (i, b) =>
      <[(i - k)%nat := set_bufferFull false b]> l = release_first l
      ∧ queued_frames l = (prepareTxHeader b, data b) :: queued_frames (release_first l)
      ∧ count_full l = S (count_full (release_first l))
  | None => release_first l = l ∧ queued_frames l = [] ∧ count_full l = 0%nat
  end.
Proof.
  revert k. induction l as [|x l IH]; intros k; [done|].
  cbn [tx_search release_first queued_frames count_full].
  destruct (bufferFull x) eqn:Hx.
  - replace (k - k)%nat with 0%nat by lia.
    cbn [count_full queued_frames bufferFull set_bufferFull]. done.
  - specialize (IH (S k)). destruct (tx_search l (S k)) as [[i b]|] eqn:Hs.
    + destruct IH as (Hins & Hq & Hc).
      apply tx_search_Some in Hs as (j & -> & _).
      replace (S k + j - k)%nat with (S j) by lia.
      replace (S k + j - S k)%nat with j in Hins by lia.
      cbn [count_full queued_frames]. rewrite Hx.
      split; [rewrite <- Hins; reflexivity|]. split; [exact Hq | exact Hc].
    + destruct IH as (Hrel & Hq & Hc).
      cbn [count_full queued_frames]. rewrite ?Hx, Hrel. done.
Qed.

Lemma release_first_all (l : list CO_CANtx_t) :
  map (set_bufferFull false) (release_first l) = map (set_bufferFull false) l.
Proof.
  induction l as [|x l IH]; [reflexivity|]. cbn [release_first].
  destruct (bufferFull x); cbn [map]; [reflexivity | by rewrite IH].
Qed.

Lemma release_none (l : list CO_CANtx_t) :
  count_full l = 0%nat → map (set_bufferFull false) l = l.
Proof.
  induction l as [|x l IH]; [reflexivity|]. cbn [count_full map].
  destruct (bufferFull x) eqn:Hx; [discriminate|]. intros Hn.
  rewrite <- Hx at 1. rewrite set_bufferFull_same, IH; [reflexivity | exact Hn].
Qed.

(** The frames of the full slots, field by field. *)
Lemma queued_frames_fields (l : list CO_CANtx_t) :
  map (λ c : CAN_TxHeaderTypeDef * list Z,
         (tx_StdId c.1, tx_ExtId c.1, tx_RTR c.1, tx_DLC c.1, c.2))
      (queued_frames l)
  = map (λ b, (Z.shiftr (ident b) 2, 0, Z.land (ident b) 2, DLC b, data b))
        (filter (λ b, bufferFull b = true) l).
Proof.
  induction l as [|x l IH]; [reflexivity|].
  rewrite filter_cons. cbn [queued_frames].
  destruct (bufferFull x) eqn:Hx; destruct (decide _) as [Hd|Hd];
    try congruence; cbn [map]; rewrite IH; reflexivity.
Qed.

(** One drain with a free mailbox and a hardware that accepts. *)
Lemma polling_Tx_accepting (d : Driver) :
  0 < TxMailboxesFreeLevel (hcan d) →
  AddTxMessage_status (hcan d) = HAL_OK →
  0 < CANtxCount (CANmodule d) < 2 ^ 16 →
  txArray (CANmodule (CO_CANpolling_Tx d)) = release_first (txArray (CANmodule d))
  ∧ AddTxMessage_calls (hcan (CO_CANpolling_Tx d))
    = AddTxMessage_calls (hcan d) ++ take 1 (queued_frames (txArray (CANmodule d)))
  ∧ CANtxCount (CANmodule (CO_CANpolling_Tx d))
    = match count_full (txArray (CANmodule d)) with
      | O => 0
      | S _ => CANtxCount (CANmodule d) - 1
      end.
Proof.
  intros Hfree Hok Hrange.
  unfold CO_CANpolling_Tx, HAL_CAN_GetTxMailboxesFreeLevel, HAL_CAN_AddTxMessage.
  apply Z.ltb_lt in Hfree. rewrite Hfree, Hok.
  cbn [CANtxCount set_bufferInhibitFlag set_firstCANtxMessage txArray is_HAL_OK].
  destruct Hrange as [Hpos Hlt]. apply Z.ltb_lt in Hpos as Hposb. rewrite Hposb.
  pose proof (tx_search_release (txArray (CANmodule d)) 0) as Hrel.
  destruct (tx_search (txArray (CANmodule d)) 0) as [[i b]|].
  - destruct Hrel as (Hins & Hq & Hc). rewrite Nat.sub_0_r in Hins.
    cbn. rewrite Hins, Hq, Hc. cbn [take].
    split; [reflexivity|]. split; [reflexivity|]. apply uint16_small. lia.
  - destruct Hrel as (Hrel & Hq & Hc). cbn. rewrite Hrel, Hq, Hc. cbn [take].
    rewrite app_nil_r. done.
Qed.

(** One drain with a free mailbox when no slot is full. *)
Lemma polling_Tx_nothing_full (d : Driver) :
  0 < TxMailboxesFreeLevel (hcan d) →
  0 ≤ CANtxCount (CANmodule d) →
  count_full (txArray (CANmodule d)) = 0%nat →
  txArray (CANmodule (CO_CANpolling_Tx d)) = txArray (CANmodule d)
  ∧ AddTxMessage_calls (hcan (CO_CANpolling_Tx d)) = AddTxMessage_calls (hcan d)
  ∧ CANtxCount (CANmodule (CO_CANpolling_Tx d)) = 0.
Proof.
  intros Hfree Hnonneg Hempty.
  unfold CO_CANpolling_Tx, HAL_CAN_GetTxMailboxesFreeLevel.
  apply Z.ltb_lt in Hfree. rewrite Hfree.
  cbn [CANtxCount set_bufferInhibitFlag set_firstCANtxMessage txArray].
  destruct (0 <? CANtxCount (CANmodule d)) eqn:Hpos.
  - pose proof (tx_search_release (txArray (CANmodule d)) 0) as Hrel.
    destruct (tx_search (txArray (CANmodule d)) 0) as [[i b]|].
    + destruct Hrel as (_ & _ & Hc). rewrite Hc in Hempty. discriminate.
    + cbn. done.
  - cbn. apply Z.ltb_ge in Hpos. split; [reflexivity|]. split; [reflexivity|].
    lia.
Qed.

Lemma drains_all (es : list (Z * Z)) :
  ∀ d,
    Forall (λ e, 0 < e.1) es →
    length es = count_full (txArray (CANmodule d)) →
    Z.of_nat (length es) ≤ CANtxCount (CANmodule d) < 2 ^ 16 →
    txArray (CANmodule (drains es d)) = map (set_bufferFull false) (txArray (CANmodule d))
    ∧ AddTxMessage_calls (hcan (drains es d))
      = AddTxMessage_calls (hcan d) ++ queued_frames (txArray (CANmodule d))
    ∧ CANtxCount (CANmodule (drains es d))
      = CANtxCount (CANmodule d) - Z.of_nat (length es).
Proof.
  induction es as [|e es IH]; intros d Hfree Hn Hrange.
  - cbn [drains foldl length] in *.
    pose proof (tx_search_release (txArray (CANmodule d)) 0) as Hrel.
    assert (Hq : queued_frames (txArray (CANmodule d)) = []).
    { destruct (tx_search _ _) as [[i b]|]; [|tauto].
      destruct Hrel as (_ & _ & Hc). rewrite Hc in Hn. discriminate. }
    rewrite Hq, app_nil_r, release_none by (symmetry; exact Hn).
    change (Z.of_nat 0) with 0. rewrite Z.sub_0_r. done.
  - apply Forall_cons in Hfree as [He Hfree].
    change (drains (e :: es) d) with (drains es (drain_step e d)).
    cbn [length] in Hn, Hrange |- *.
    destruct (polling_Tx_accepting (environment e.1 HAL_OK e.2 d))
      as (Htx & Hcalls & Hcnt); [exact He | reflexivity | cbn; lia |].
    fold (drain_step e d) in Htx, Hcalls, Hcnt.
    cbn [environment with_hcan CANmodule hcan peripheral AddTxMessage_calls]
      in Htx, Hcalls, Hcnt.
    pose proof (tx_search_release (txArray (CANmodule d)) 0) as Hrel.
    destruct (tx_search _ _) as [[i b]|];
      [|destruct Hrel as (_ & _ & Hc); rewrite Hc in Hn; discriminate].
    destruct Hrel as (_ & Hq & Hc). rewrite <- Hn in Hcnt.
    destruct (IH (drain_step e d)) as (Htx2 & Hcalls2 & Hcnt2).
    + exact Hfree.
    + rewrite Htx. rewrite Hc in Hn. lia.
    + rewrite Hcnt. lia.
    + rewrite Htx2, Hcalls2, Hcnt2, Htx, Hcalls, Hcnt.
      rewrite release_first_all, Hq. cbn [take]. rewrite <- app_assoc.
      split; [reflexivity|]. split; [reflexivity|]. lia.
Qed.

(** X8. Draining sends every queued frame once, in array order, and repairs
    the counter. Take any state whose counter is at least the number of full
    slots, and as many drains as there are full slots, each made after the
    environment has freed a mailbox (the free level and the error code it
    leaves before each drain are arbitrary, the free level positive) and
    with a peripheral that accepts the frame. These drains pass to
    [HAL_CAN_AddTxMessage] exactly one frame for each full slot, lowest
    index first, each with the slot's data, the identifier [ident >> 2], the
    RTR field [ident & 2], the slot's [DLC] and no extended identifier; they
    leave every slot with [bufferFull] false and the frame it held, and the
    counter decreased by their number. One more drain passes nothing, leaves
    the array alone and leaves the counter at 0, equal to the number of full
    slots, also when the counter was too high before. *)
Theorem polling_Tx_drains_in_order (d : Driver) (es : list (Z * Z)) (last : Z * Z) :
  Forall (λ e, 0 < e.1) es →
  0 < last.1 →
  length es = count_full (txArray (CANmodule d)) →
  Z.of_nat (count_full (txArray (CANmodule d))) ≤ CANtxCount (CANmodule d) < 2 ^ 16 →
  (∃ new,
     AddTxMessage_calls (hcan (drains es d)) = AddTxMessage_calls (hcan d) ++ new
     ∧ map (λ c : CAN_TxHeaderTypeDef * list Z,
              (tx_StdId c.1, tx_ExtId c.1, tx_RTR c.1, tx_DLC c.1, c.2)) new
       = map (λ b, (Z.shiftr (ident b) 2, 0, Z.land (ident b) 2, DLC b, data b))
             (filter (λ b, bufferFull b = true) (txArray (CANmodule d))))
  ∧ length (txArray (CANmodule (drains es d))) = length (txArray (CANmodule d))
  ∧ (∀ i b, txArray (CANmodule d) !! i = Some b →
       ∃ b', txArray (CANmodule (drains es d)) !! i = Some b'
             ∧ bufferFull b' = false ∧ same_frame b b')
  ∧ CANtxCount (CANmodule (drains es d))
    = CANtxCount (CANmodule d) - Z.of_nat (count_full (txArray (CANmodule d)))
  ∧ AddTxMessage_calls (hcan (drain_step last (drains es d)))
    = AddTxMessage_calls (hcan (drains es d))
  ∧ txArray (CANmodule (drain_step last (drains es d)))
    = txArray (CANmodule (drains es d))
  ∧ CANtxCount (CANmodule (drain_step last (drains es d))) = 0
  ∧ tx_count_consistent (CANmodule (drain_step last (drains es d))).
Proof.
  intros Hfree Hlast Hn Hrange.
  destruct (drains_all es d Hfree Hn ltac:(lia)) as (Htx & Hcalls & Hcnt).
  set (d1 := drains es d) in *.
  assert (Hempty : count_full (txArray (CANmodule d1)) = 0%nat).
  { rewrite Htx. apply count_full_zero. intros b Hb.
    apply list_elem_of_fmap in Hb as (x & -> & _). reflexivity. }
  destruct (polling_Tx_nothing_full (environment last.1 HAL_OK last.2 d1))
    as (Htx1 & Hcalls1 & Hcnt1);
    [exact Hlast | cbn; fold d1; rewrite Hcnt; lia | exact Hempty |].
  fold (drain_step last d1) in Htx1, Hcalls1, Hcnt1.
  cbn [environment with_hcan CANmodule hcan peripheral AddTxMessage_calls]
    in Htx1, Hcalls1.
  split.
  { eexists. split; [exact Hcalls | apply queued_frames_fields]. }
  split; [rewrite Htx; apply length_map|].
  split.
  { intros i b Hb. rewrite Htx, list_lookup_fmap, Hb.
    eexists. split; [reflexivity|]. done. }
  split; [rewrite Hcnt, Hn; reflexivity|].
  split; [exact Hcalls1|]. split; [exact Htx1|]. split; [exact Hcnt1|].
  unfold tx_count_consistent. rewrite Hcnt1, Htx1, Hempty. reflexivity.
Qed.

(** Slots 0 and 2 queued, the counter one too high, one mailbox freed before
    each drain: two drains send both frames, slot 0 first, and the third
    leaves the counter at 0. *)
Lemma polling_Tx_drains_in_order_witness :
  (∃ new,
     AddTxMessage_calls
       (hcan (drains [(1, 0); (1, 0)]
                (with_module
                   (set_CANtxCount 3
                      (set_txArray [queued_tx; zero_tx; set_bufferFull true sync_tx]
                         zero_module))
                   booted))) = [] ++ new
     ∧ map (λ c : CAN_TxHeaderTypeDef * list Z,
              (tx_StdId c.1, tx_ExtId c.1, tx_RTR c.1, tx_DLC c.1, c.2)) new
       = [(0, 0, 0, 0, data zero_tx); (0x181, 0, 0, 8, data sync_tx)])
  ∧ CANtxCount
      (CANmodule
         (drain_step (1, 0)
            (drains [(1, 0); (1, 0)]
               (with_module
                  (set_CANtxCount 3
                     (set_txArray [queued_tx; zero_tx; set_bufferFull true sync_tx]
                        zero_module))
                  booted)))) = 0.
Proof.
  assert (Hfree : Forall (λ e : Z * Z, 0 < e.1) [(1, 0); (1, 0)])
    by (repeat constructor).
  assert (Hlast : 0 < (1, 0).1) by (simpl; lia).
  assert (Hrange :
    Z.of_nat (count_full [queued_tx; zero_tx; set_bufferFull true sync_tx]) ≤ 3 < 2 ^ 16)
    by (simpl; lia).
  destruct (polling_Tx_drains_in_order
              (with_module
                 (set_CANtxCount 3
                    (set_txArray [queued_tx; zero_tx; set_bufferFull true sync_tx]
                       zero_module))
                 booted) [(1, 0); (1, 0)] (1, 0) Hfree Hlast eq_refl Hrange)
    as (Hcalls & _ & _ & _ & _ & _ & Hcnt & _).
  split; [exact Hcalls | exact Hcnt].
Defined.

(** A send on the free slot, a drain and a clearing, from the initialised
    driver. *)
Lemma run_tx_in_order_witness :
  tx_count_consistent
    (CANmodule (CO_CANclearPendingSyncPDOs
                  (CO_CANpolling_Tx (one_slot queued_tx 1 0 HAL_OK)))).
Proof.
  apply (@run_tx_in_order stm32_hal_can_error
           (one_slot zero_tx 0 0 HAL_OK)
           (CO_CANclearPendingSyncPDOs
              (CO_CANpolling_Tx (one_slot queued_tx 1 0 HAL_OK)))).
  - eapply rtc_l.
    { apply (@step_send stm32_hal_can_error (one_slot zero_tx 0 0 HAL_OK) 0 zero_tx
               CO_ERROR_NO (one_slot queued_tx 1 0 HAL_OK)); reflexivity. }
    eapply rtc_l; [apply step_polling_Tx|].
    apply rtc_once. apply step_clearPendingSyncPDOs.
  - split; [unfold txSize; simpl; lia | reflexivity].
Defined.

(** X10. CO_CANmodule_init writes before it fails. With the module, the
    handle and both arrays present it always returns, never with the illegal
    argument error, and whatever it returns (success, the illegal baud rate
    error or the HAL error) the module has been reset: every receive entry
    has lost its identifier and its handler but kept its mask and object,
    every transmit slot has been released, so frames that were queued are
    dropped, the counter is 0 and agrees with the flags, and the handle's
    [Init] has been overwritten; the prescaler is the only field an
    unsupported rate leaves as it was. *)
Theorem module_init_writes_before_failing (m0 : CO_CANmodule_t)
    (h : CAN_HandleTypeDef) (rxA : list CO_CANrx_t) (txA : list CO_CANtx_t)
    (CANbitRate : Z) :
  ∃ err m h',
    CO_CANmodule_init (Some m0) (Some h) (Some rxA) (Some txA) CANbitRate
    = Returns (err, Some (m, h'))
    ∧ err ≠ CO_ERROR_ILLEGAL_ARGUMENT
    ∧ rxArray m = map init_rx rxA
    ∧ (∀ i e, rxArray m !! i = Some e →
         rx_ident e = 0 ∧ rx_pFunct e = NULL
         ∧ ∃ e0, rxA !! i = Some e0 ∧ rx_mask e = rx_mask e0 ∧ rx_object e = rx_object e0)
    ∧ txArray m = map (set_bufferFull false) txA
    ∧ queued_frames (txArray m) = []
    ∧ CANtxCount m = 0
    ∧ tx_count_consistent m
    ∧ CANnormal m = false
    ∧ firstCANtxMessage m = true
    ∧ bufferInhibitFlag m = false
    ∧ errOld m = 0
    ∧ Instance h' = Some CAN1
    ∧ Init h' = init_Init (Prescaler (Init h'))
    ∧ (err = CO_ERROR_ILLEGAL_BAUDRATE → Prescaler (Init h') = Prescaler (Init h))
    ∧ AddTxMessage_calls h' = AddTxMessage_calls h.
Proof.
  assert (Hq : ∀ l, queued_frames (map (set_bufferFull false) l) = []).
  { induction l as [|x l IH]; [reflexivity | exact IH]. }
  assert (Hc : ∀ l, count_full (map (set_bufferFull false) l) = 0%nat).
  { induction l as [|x l IH]; [reflexivity | exact IH]. }
  assert (Hrx : ∀ i e, map init_rx rxA !! i = Some e →
            rx_ident e = 0 ∧ rx_pFunct e = NULL
            ∧ ∃ e0, rxA !! i = Some e0 ∧ rx_mask e = rx_mask e0
                    ∧ rx_object e = rx_object e0).
  { intros i e He. rewrite list_lookup_fmap in He.
    destruct (rxA !! i) as [e0|]; [|discriminate He]. injection He as <-.
    split; [reflexivity|]. split; [reflexivity|]. exists e0. done. }
  unfold CO_CANmodule_init, HAL_CAN_Init.
  destruct (Prescaler_of CANbitRate) as [p|];
    [destruct (is_HAL_OK _)|];
    eexists _, _, _; (split; [reflexivity|]);
    cbn [rxArray txArray CANtxCount CANnormal firstCANtxMessage bufferInhibitFlag
         errOld Instance Init set_Init Prescaler init_Init AddTxMessage_calls];
    unfold tx_count_consistent; cbn [CANtxCount txArray];
    rewrite Hq, Hc; split_and!; try done; exact Hrx.
Qed.

(** X11. The prescaler table agrees with the clock the code assumes: after a
    call that got as far as [HAL_CAN_Init] (success or the HAL error), the
    prescaler written to the handle times the 16 time quanta of a bit
    (1 + 13 + 2) times the bit rate in kbit/s is the 80 MHz of the CAN
    clock. *)
Theorem module_init_prescaler (CANmodule_p : option CO_CANmodule_t)
    (HALCanObject : option CAN_HandleTypeDef)
    (rxArray_p : option (list CO_CANrx_t)) (txArray_p : option (list CO_CANtx_t))
    (CANbitRate : Z) (err : CO_ReturnError_t) (m : CO_CANmodule_t)
    (h' : CAN_HandleTypeDef) :
  CO_CANmodule_init CANmodule_p HALCanObject rxArray_p txArray_p CANbitRate
  = Returns (err, Some (m, h')) →
  err ≠ CO_ERROR_ILLEGAL_BAUDRATE →
  Prescaler (Init h') * 16 * CANbitRate = 80000
  ∧ TimeSeg1 (Init h') = CAN_BS1_13TQ
  ∧ TimeSeg2 (Init h') = CAN_BS2_2TQ
  ∧ SyncJumpWidth (Init h') = CAN_SJW_1TQ.
Proof.
  intros Hinit Herr. unfold CO_CANmodule_init in Hinit.
  destruct CANmodule_p as [m0|], rxArray_p as [rxA|], txArray_p as [txA|];
    try discriminate Hinit.
  destruct HALCanObject as [h0|]; [|discriminate Hinit].
  unfold Prescaler_of in Hinit.
  repeat match type of Hinit with
         | context [CANbitRate =? ?k] =>
             destruct (Z.eqb_spec CANbitRate k) as [->|?]
         end;
    try (injection Hinit as <- _ _; done);
    destruct (is_HAL_OK _); injection Hinit as _ _ <-; cbn; repeat split; lia.
Qed.

(** 125 kbit/s: prescaler 40. *)
Lemma module_init_prescaler_witness :
  Prescaler (Init (set_Init (init_Init 40) zero_hcan)) * 16 * 125 = 80000
  ∧ TimeSeg1 (Init (set_Init (init_Init 40) zero_hcan)) = CAN_BS1_13TQ
  ∧ TimeSeg2 (Init (set_Init (init_Init 40) zero_hcan)) = CAN_BS2_2TQ
  ∧ SyncJumpWidth (Init (set_Init (init_Init 40) zero_hcan)) = CAN_SJW_1TQ.
Proof.
  apply (module_init_prescaler (Some zero_module) (Some zero_hcan) (Some [])
           (Some [zero_tx]) 125 CO_ERROR_NO (CANmodule booted)
           (set_Init (init_Init 40) zero_hcan)).
  - reflexivity.
  - discriminate.
Defined.

(** ** More on the transmit queue *)

Lemma clear_sync_idempotent (l : list CO_CANtx_t) :
  count_pending_sync (map clear_sync l) = 0%nat.
Proof.
  induction l as [|b l IH]; [reflexivity|]. cbn [map count_pending_sync].
  rewrite IH. unfold clear_sync, pending_sync.
  destruct b as [i dl da [|] [|]]; reflexivity.
Qed.

Lemma clearPendingSyncPDOs_nothing_to_do (d : Driver) :
  bufferInhibitFlag (CANmodule d) = false →
  CANtxCount (CANmodule d) = 0 ∨ count_pending_sync (txArray (CANmodule d)) = 0%nat →
  CO_CANclearPendingSyncPDOs d = d.
Proof.
  intros Hinh Hnone. unfold CO_CANclearPendingSyncPDOs. rewrite Hinh.
  destruct (nonzero (CANtxCount (CANmodule d))) eqn:Hnz.
  - destruct Hnone as [Hz|Hn];
      [rewrite Hz in Hnz; discriminate|].
    rewrite clearPendingSync_loop_spec, Hn, clear_sync_nothing_pending by exact Hn.
    destruct d as [[] ? ?]. reflexivity.
  - destruct d as [[] ? ?]. reflexivity.
Qed.

(** X12. CO_CANclearPendingSyncPDOs is idempotent: a second call right after
    the first changes nothing and reports nothing, in every state. *)
Theorem clearPendingSyncPDOs_idempotent (d : Driver) :
  CO_CANclearPendingSyncPDOs (CO_CANclearPendingSyncPDOs d)
  = CO_CANclearPendingSyncPDOs d.
Proof.
  destruct (clearPendingSyncPDOs_fields d) as (Hinh & Htx & Hcnt & _).
  cbv zeta in Htx, Hcnt.
  apply clearPendingSyncPDOs_nothing_to_do; [exact Hinh|].
  rewrite Htx, Hcnt.
  destruct (nonzero (CANtxCount (CANmodule d))) eqn:Hnz; cbn [andb].
  - right. apply clear_sync_idempotent.
  - left. apply negb_false_iff, Z.eqb_eq in Hnz. exact Hnz.
Qed.

(** X13. Configuring a slot that still holds a queued frame drops the frame
    without telling the counter: CO_CANtxBufferInit clears [bufferFull] and
    leaves [CANtxCount] as it was, so from a state in which the counter
    agreed with the flags it is one too high afterwards. *)
Theorem txBufferInit_drops_queued_frame (m : CO_CANmodule_t) (index : nat)
    (b : CO_CANtx_t) (ident_arg : Z) (rtr : bool) (noOfBytes : Z) (sync : bool) :
  txArray m !! index = Some b →
  bufferFull b = true →
  ∃ m',
    CO_CANtxBufferInit (Some m) index ident_arg rtr noOfBytes sync
    = (Some index, Some m')
    ∧ CANtxCount m' = CANtxCount m
    ∧ S (count_full (txArray m')) = count_full (txArray m)
    ∧ (tx_count_consistent m →
       CANtxCount m' = Z.of_nat (count_full (txArray m')) + 1
       ∧ ¬ tx_count_consistent m').
Proof.
  intros Hb Hfull. unfold CO_CANtxBufferInit.
  assert (Hlt : (index <? txSize m)%nat = true).
  { apply Nat.ltb_lt. eapply lookup_lt_Some. exact Hb. }
  rewrite Hlt, Hb. eexists. split; [reflexivity|].
  cbn [CANtxCount txArray set_txArray].
  pose proof (count_full_insert _ _ _ (init_tx ident_arg rtr noOfBytes sync b) Hb)
    as Hins.
  rewrite Hfull in Hins. cbn [bufferFull init_tx] in Hins.
  split; [reflexivity|]. split; [lia|].
  unfold tx_count_consistent. cbn [CANtxCount txArray set_txArray].
  intros Hc. split; lia.
Qed.

(** The queued slot of the one-slot driver is configured anew. *)
Lemma txBufferInit_drops_queued_frame_witness :
  ∃ m',
    CO_CANtxBufferInit (Some (CANmodule (one_slot queued_tx 1 0 HAL_OK))) 0 0x181 false 8
      true = (Some 0%nat, Some m')
    ∧ CANtxCount m' = 1
    ∧ count_full (txArray m') = 0%nat.
Proof.
  destruct (txBufferInit_drops_queued_frame (CANmodule (one_slot queued_tx 1 0 HAL_OK))
              0 queued_tx 0x181 false 8 true eq_refl eq_refl)
    as (m' & Hinit & Hcnt & Hfull & _).
  exists m'. split; [exact Hinit|]. split; [exact Hcnt|].
  simpl in Hfull. lia.
Defined.

(** X17. One call of CO_CANpolling_Tx passes at most one frame to the
    hardware, however many mailboxes are free, and only the frame of a slot
    that is full; without a free mailbox it changes nothing. It never
    touches the receive entries, [errOld], [CANnormal] or the emergency
    object. *)
Theorem polling_Tx_one_frame (d : Driver) :
  (TxMailboxesFreeLevel (hcan d) ≤ 0 → CO_CANpolling_Tx d = d)
  ∧ (AddTxMessage_calls (hcan (CO_CANpolling_Tx d)) = AddTxMessage_calls (hcan d)
     ∨ ∃ b, b ∈ txArray (CANmodule d) ∧ bufferFull b = true
            ∧ AddTxMessage_calls (hcan (CO_CANpolling_Tx d))
              = AddTxMessage_calls (hcan d) ++ [(prepareTxHeader b, data b)])
  ∧ rxArray (CANmodule (CO_CANpolling_Tx d)) = rxArray (CANmodule d)
  ∧ errOld (CANmodule (CO_CANpolling_Tx d)) = errOld (CANmodule d)
  ∧ CANnormal (CANmodule (CO_CANpolling_Tx d)) = CANnormal (CANmodule d)
  ∧ EM (CO_CANpolling_Tx d) = EM d.
Proof.
  split; [apply polling_Tx_no_mailbox|].
  unfold CO_CANpolling_Tx, HAL_CAN_GetTxMailboxesFreeLevel, HAL_CAN_AddTxMessage.
  destruct (0 <? TxMailboxesFreeLevel (hcan d)); [|split_and!; auto].
  cbn [CANtxCount set_bufferInhibitFlag set_firstCANtxMessage txArray].
  destruct (0 <? CANtxCount (CANmodule d)); [|split_and!; auto].
  destruct (tx_search (txArray (CANmodule d)) 0) as [[i b]|] eqn:Hs;
    [|split_and!; auto].
  apply tx_search_Some in Hs as (j & _ & Hj & Hb & _).
  assert (Hin : b ∈ txArray (CANmodule d)) by (eapply list_elem_of_lookup_2; exact Hj).
  destruct (is_HAL_OK _); cbn; (split_and!; [right; exists b; done | done..]).
Qed.

(** With the error bits of the STM32 HAL the warning bit comes and the
    checks that follow never reset the warning fault. *)
Lemma verifyErrors_never_resets_warning_witness :
  filter (λ c, is_reset_of CO_EM_CAN_BUS_WARNING c = true)
    (em_calls (EM (@CO_CANverifyErrors stm32_hal_can_error (environment 3 HAL_OK 0 warned))))
  = [].
Proof.
  exact (@verifyErrors_never_resets_warning stm32_hal_can_error
           (environment 3 HAL_OK 0 warned) eq_refl).
Defined.

(** ** More on the error check *)

(** X14. Bus-off comes first, and receive overflow is reported at every
    change. When the error code differs from [errOld] and the bus-off bit is
    set, CO_CANverifyErrors reports bus-off and, apart from the receive
    overflow report, nothing else: warning and passive are not looked at.
    When the bus-off bit is clear, the first call made is the reset of the
    bus-off fault. Whenever the code changed and a receive overflow bit is
    set in it, the last call made is the receive overflow report, also when
    that bit was already set in [errOld]. *)
Theorem verifyErrors_bus_off_first `{HAL_CAN_ERROR} (d : Driver) :
  errOld (CANmodule d) ≠ ErrorCode (hcan d) →
  (Z.land (ErrorCode (hcan d)) HAL_CAN_ERROR_BOF ≠ 0 →
     em_calls (EM (CO_CANverifyErrors d))
     = em_calls (EM d)
       ++ errorReport CO_EM_CAN_TX_BUS_OFF CO_EMC_BUS_OFF_RECOVERED (ErrorCode (hcan d))
       :: (if nonzero (Z.land (ErrorCode (hcan d)) HAL_CAN_ERROR_RX_FOV0)
              || nonzero (Z.land (ErrorCode (hcan d)) HAL_CAN_ERROR_RX_FOV1)
           then [errorReport CO_EM_CAN_RXB_OVERFLOW CO_EMC_CAN_OVERRUN
                   (ErrorCode (hcan d))]
           else []))
  ∧ (Z.land (ErrorCode (hcan d)) HAL_CAN_ERROR_BOF = 0 →
       ∃ rest,
         em_calls (EM (CO_CANverifyErrors d))
         = em_calls (EM d)
           ++ errorReset CO_EM_CAN_TX_BUS_OFF (ErrorCode (hcan d)) :: rest)
  ∧ (Z.land (ErrorCode (hcan d)) HAL_CAN_ERROR_RX_FOV0 ≠ 0
     ∨ Z.land (ErrorCode (hcan d)) HAL_CAN_ERROR_RX_FOV1 ≠ 0 →
       last (em_calls (EM (CO_CANverifyErrors d)))
       = Some (errorReport CO_EM_CAN_RXB_OVERFLOW CO_EMC_CAN_OVERRUN
                 (ErrorCode (hcan d)))).
Proof.
  intros Hne. unfold CO_CANverifyErrors. rewrite bool_decide_true by exact Hne.
  cbn [EM]. split; [|split].
  - intros Hbof. unfold nonzero. apply Z.eqb_neq in Hbof. rewrite Hbof.
    cbn [negb]. destruct (_ || _); cbn [em_calls CO_errorReport];
      rewrite <- ?app_assoc; reflexivity.
  - intros Hbof. unfold nonzero. rewrite Hbof. cbn [Z.eqb negb].
    repeat match goal with
           | |- context [if ?c then _ else _] => destruct c
           end;
      cbn [em_calls CO_errorReport CO_errorReset]; rewrite <- ?app_assoc;
      eexists; reflexivity.
  - intros Hfov.
    assert (Hov : nonzero (Z.land (ErrorCode (hcan d)) HAL_CAN_ERROR_RX_FOV0)
                  || nonzero (Z.land (ErrorCode (hcan d)) HAL_CAN_ERROR_RX_FOV1) = true).
    { unfold nonzero. apply orb_true_iff.
      destruct Hfov as [Hf%Z.eqb_neq|Hf%Z.eqb_neq]; rewrite Hf; auto. }
    rewrite Hov. cbn [em_calls CO_errorReport]. apply last_snoc.
Qed.

(** Bus-off with the warning bit set too (0x5 in the STM32 HAL): one report. *)
Lemma verifyErrors_bus_off_first_witness :
  em_calls (EM (@CO_CANverifyErrors stm32_hal_can_error (environment 3 HAL_OK 0x5 booted)))
  = [errorReport CO_EM_CAN_TX_BUS_OFF CO_EMC_BUS_OFF_RECOVERED 0x5].
Proof.
  assert (Hne : errOld (CANmodule (environment 3 HAL_OK 0x5 booted))
                ≠ ErrorCode (hcan (environment 3 HAL_OK 0x5 booted)))
    by discriminate.
  apply (proj1 (@verifyErrors_bus_off_first stm32_hal_can_error
                  (environment 3 HAL_OK 0x5 booted) Hne)).
  discriminate.
Defined.

(** X15. While the bootup frame has not gone out ([firstCANtxMessage] still
    true) CO_CANverifyErrors never reports the bus passive fault, whatever
    the error code. *)
Theorem verifyErrors_passive_silent_at_boot `{HAL_CAN_ERROR} (d : Driver) :
  firstCANtxMessage (CANmodule d) = true →
  filter (λ c, is_report_of CO_EM_CAN_TX_BUS_PASSIVE c = true)
    (em_calls (EM (CO_CANverifyErrors d)))
  = filter (λ c, is_report_of CO_EM_CAN_TX_BUS_PASSIVE c = true) (em_calls (EM d)).
Proof.
  intros Hfirst. unfold CO_CANverifyErrors.
  case_bool_decide; [|reflexivity]. cbn [EM firstCANtxMessage set_errOld].
  rewrite Hfirst. cbn [negb].
  repeat match goal with
         | |- context [if ?c then _ else _] => destruct c
         end;
    cbn [em_calls CO_errorReport CO_errorReset];
    rewrite ?filter_app, ?filter_cons, ?filter_nil; cbn;
    rewrite ?app_nil_r; reflexivity.
Qed.

(** The passive bit (0x2 in the STM32 HAL) right after initialisation. *)
Lemma verifyErrors_passive_silent_at_boot_witness :
  filter (λ c, is_report_of CO_EM_CAN_TX_BUS_PASSIVE c = true)
    (em_calls (EM (@CO_CANverifyErrors stm32_hal_can_error
                     (environment 3 HAL_OK 0x2 booted))))
  = [].
Proof.
  exact (@verifyErrors_passive_silent_at_boot stm32_hal_can_error
           (environment 3 HAL_OK 0x2 booted) eq_refl).
Defined.

(** ** Before the first drain *)

Lemma send_step_at_boot (buffer : nat) (d : Driver) :
  firstCANtxMessage (CANmodule d) = true →
  firstCANtxMessage (CANmodule (send_step buffer d)) = true
  ∧ EM (send_step buffer d) = EM d.
Proof.
  intros Hfirst. unfold send_step, CO_CANsend, HAL_CAN_AddTxMessage.
  destruct (txArray (CANmodule d) !! buffer) as [b|]; [|done].
  rewrite Hfirst. cbn [negb].
  destruct (bufferFull b), (_ && _); cbn; done.
Qed.

(** X18. Until CO_CANpolling_Tx has run once with a mailbox free,
    [firstCANtxMessage] stays true through any sequence of sends, on any
    slots and whatever the hardware answers, and none of them reaches the
    emergency object: transmit overflow is not reported before the first
    drain, however often a full slot is sent again. A direct send that the
    hardware accepts does not end this phase. *)
Theorem sends_before_first_drain_report_nothing (buffers : list nat) (d : Driver) :
  firstCANtxMessage (CANmodule d) = true →
  firstCANtxMessage (CANmodule (foldl (λ s buffer, send_step buffer s) d buffers)) = true
  ∧ EM (foldl (λ s buffer, send_step buffer s) d buffers) = EM d.
Proof.
  revert d. induction buffers as [|buffer buffers IH]; intros d Hfirst; [done|].
  cbn [foldl]. destruct (send_step_at_boot buffer d Hfirst) as [Hfirst' Hem].
  destruct (IH (send_step buffer d) Hfirst') as [Hf Heq].
  split; [exact Hf | by rewrite Heq].
Qed.

(** Three sends on the one slot right after initialisation, no mailbox free:
    two of them overflow, nothing is reported. *)
Lemma sends_before_first_drain_report_nothing_witness :
  EM (foldl (λ s buffer, send_step buffer s) (one_slot zero_tx 0 0 HAL_OK)
        [0%nat; 0%nat; 0%nat])
  = no_faults.
Proof.
  exact (proj2 (sends_before_first_drain_report_nothing [0%nat; 0%nat; 0%nat]
                  (one_slot zero_tx 0 0 HAL_OK) eq_refl)).
Defined.
